(** * The chess board widget of [chess_app.py]: model and verification

    [ChessBoardWidget] keeps a python-chess board, a selected square, the
    list of committed moves with a cursor into it, one move animation and
    two bounce animations.  The widget is driven by Qt events: mouse
    presses, key presses, paint requests, and the values and [finished]
    signals its running animations deliver.

    The embedding is shallow.  Every attribute of the widget is a field of
    the record [Widget]; every method is a function on [Widget] that follows
    the statements of the method in order; a method that can raise returns
    an [Outcome]: it returns, or it raises and leaves the widget as it
    was at the [raise].  An exception that leaves a handler ends the
    application, as PyQt5 does, so a run of events goes through handlers
    that return.  The rules engine (python-chess) is not part of the
    repository: it is the interface [RulesEngine], and [MiniChess] below is
    an executable instance used to run the widget on concrete games. *)

From Stdlib Require Import ZArith QArith Lia.
From stdpp Require Import base list gmap strings.

#[local] Open Scope Z_scope.

(** ** Values of the chess library used by the widget *)

Inductive Color := WHITE | BLACK.

Inductive PieceType := PAWN | KNIGHT | BISHOP | ROOK | QUEEN | KING.

Record Piece := mkPiece { piece_type : PieceType; color : Color }.

(** [chess.Move(from_square, to_square, promotion=None)]. *)
Record Move := mkMove {
  from_square : Z;
  to_square : Z;
  promotion : option PieceType
}.

#[global] Instance Color_eq_dec : EqDecision Color.
Proof. solve_decision. Defined.
#[global] Instance PieceType_eq_dec : EqDecision PieceType.
Proof. solve_decision. Defined.
#[global] Instance Piece_eq_dec : EqDecision Piece.
Proof. solve_decision. Defined.
#[global] Instance Move_eq_dec : EqDecision Move.
Proof. solve_decision. Defined.

Definition opposite (c : Color) : Color :=
  match c with WHITE => BLACK | BLACK => WHITE end.

(** [chess.square(file, rank)], [chess.square_file], [chess.square_rank]. *)
Definition chess_square (file rank : Z) : Z := rank * 8 + file.
Definition square_file (sq : Z) : Z := Z.land sq 7.
Definition square_rank (sq : Z) : Z := Z.shiftr sq 3.

(** [chess.SQUARES]: a1 = 0 up to h8 = 63. *)
Definition SQUARES : list Z := Z.of_nat <$> seq 0 64.

(** [Move.__bool__]: the null move [Move(0, 0)] is falsy. *)
Definition Move_bool (m : Move) : bool :=
  negb (from_square m =? 0) || negb (to_square m =? 0) || bool_decide (promotion m ≠ None).

(** [Piece.symbol()]: upper case for White, lower case for Black. *)
Definition symbol (p : Piece) : string :=
  match color p, piece_type p with
  | WHITE, PAWN => "P" | WHITE, KNIGHT => "N" | WHITE, BISHOP => "B"
  | WHITE, ROOK => "R" | WHITE, QUEEN => "Q" | WHITE, KING => "K"
  | BLACK, PAWN => "p" | BLACK, KNIGHT => "n" | BLACK, BISHOP => "b"
  | BLACK, ROOK => "r" | BLACK, QUEEN => "q" | BLACK, KING => "k"
  end.

(** The module-level table [piece_images], in its source order. *)
Definition piece_images : list (string * string) :=
  [ ("P", "w_pawn.png"); ("R", "w_rook.png"); ("N", "w_knight.png");
    ("B", "w_bishop.png"); ("Q", "w_queen.png"); ("K", "w_king.png");
    ("p", "b_pawn.png"); ("r", "b_rook.png"); ("n", "b_knight.png");
    ("b", "b_bishop.png"); ("q", "b_queen.png"); ("k", "b_king.png") ].

(** Python's [l[:k]]: a negative [k] counts from the end, and the bound is
    clamped to the length of the list. *)
Definition slice_to {A} (l : list A) (k : Z) : list A :=
  if k <? 0 then take (Z.to_nat (Z.of_nat (length l) + k)) l
  else take (Z.to_nat k) l.

(** ** The rules engine *)

(** What [board.push(move)] does: it changes the board and returns, or it
    raises [AssertionError] and leaves the board as it was at the
    [assert], already changed. *)
Inductive PushResult (B : Type) :=
| Pushed (b : B)
| PushRaised (b : B).
Arguments Pushed {B} b.
Arguments PushRaised {B} b.

(** What the widget calls on [chess.Board].  [initial] is the board that
    [chess.Board()] builds and [reset()] restores.  [push] does not test
    that the move is legal; it raises when there is nothing to move, which
    is never the case for a legal move ([push_legal]).  The squares given
    to [piece_at] are squares of the board, 0 to 63. *)
Class RulesEngine := {
  Board : Type;
  initial : Board;
  push : Board → Move → PushResult Board;
  legal_moves : Board → list Move;
  piece_at : Board → Z → option Piece;
  turn : Board → Color;
  is_check : Board → bool;
  is_capture : Board → Move → bool;
  is_en_passant : Board → Move → bool;
  is_checkmate : Board → bool;
  is_stalemate : Board → bool;
  is_insufficient_material : Board → bool;
  push_legal : ∀ b m, m ∈ legal_moves b → ∃ b', push b m = Pushed b'
}.

(** ** Qt property animations *)

Inductive AnimState := Running | Stopped.
Inductive Easing := Linear | OutBounce.

(** A [QPropertyAnimation] on a property of the widget, as configured by
    the setters the source calls on it. *)
Record PropertyAnimation := mkAnim {
  property_name : string;
  duration : Z;
  start_value : Q;
  key_values : list (Q * Q);
  end_value : Q;
  loop_count : Z;
  easing_curve : Easing;
  anim_state : AnimState
}.

Definition running (a : option PropertyAnimation) : bool :=
  match a with
  | Some a => match anim_state a with Running => true | Stopped => false end
  | None => false
  end.

Definition stop (a : PropertyAnimation) : PropertyAnimation :=
  mkAnim (property_name a) (duration a) (start_value a) (key_values a)
         (end_value a) (loop_count a) (easing_curve a) Stopped.

(** What a handler can raise. *)
Inductive Exn := AttributeError | AssertionError.

Section Widget.
Context {E : RulesEngine}.

(** ** The state of [ChessBoardWidget]

    One field per attribute set in [__init__]; [message_boxes] records the
    calls of [QMessageBox.information] as (title, text). *)
Record Widget := mkWidget {
  board : Board;
  selected_square : option Z;
  piece_pixmaps : gmap string string;
  move_history : list Move;
  current_move_index : Z;
  animating : bool;
  _anim_progress : Q;
  pending_move : option Move;
  anim_start_point : Z * Z;
  anim_end_point : Z * Z;
  anim : option PropertyAnimation;
  _bounce_scale : Q;
  bounceAnim : option PropertyAnimation;
  _king_bounce_scale : Q;
  kingBounceAnim : option PropertyAnimation;
  message_boxes : list (string * string)
}.

(** The result of a handler: it returns, or it raises and leaves the
    widget as it was at the [raise]. *)
Inductive Outcome :=
| Returned (w : Widget)
| Raised (e : Exn) (w : Widget).

Definition state_of (o : Outcome) : Widget :=
  match o with Returned w => w | Raised _ w => w end.

Definition raised (o : Outcome) : bool :=
  match o with Returned _ => false | Raised _ _ => true end.

(** Attribute assignments [self.x = v]. *)
Definition set_board v w :=
  mkWidget v (selected_square w) (piece_pixmaps w) (move_history w)
    (current_move_index w) (animating w) (_anim_progress w) (pending_move w)
    (anim_start_point w) (anim_end_point w) (anim w) (_bounce_scale w)
    (bounceAnim w) (_king_bounce_scale w) (kingBounceAnim w) (message_boxes w).
Definition set_selected_square v w :=
  mkWidget (board w) v (piece_pixmaps w) (move_history w)
    (current_move_index w) (animating w) (_anim_progress w) (pending_move w)
    (anim_start_point w) (anim_end_point w) (anim w) (_bounce_scale w)
    (bounceAnim w) (_king_bounce_scale w) (kingBounceAnim w) (message_boxes w).
Definition set_move_history v w :=
  mkWidget (board w) (selected_square w) (piece_pixmaps w) v
    (current_move_index w) (animating w) (_anim_progress w) (pending_move w)
    (anim_start_point w) (anim_end_point w) (anim w) (_bounce_scale w)
    (bounceAnim w) (_king_bounce_scale w) (kingBounceAnim w) (message_boxes w).
Definition set_current_move_index v w :=
  mkWidget (board w) (selected_square w) (piece_pixmaps w) (move_history w)
    v (animating w) (_anim_progress w) (pending_move w)
    (anim_start_point w) (anim_end_point w) (anim w) (_bounce_scale w)
    (bounceAnim w) (_king_bounce_scale w) (kingBounceAnim w) (message_boxes w).
Definition set_animating v w :=
  mkWidget (board w) (selected_square w) (piece_pixmaps w) (move_history w)
    (current_move_index w) v (_anim_progress w) (pending_move w)
    (anim_start_point w) (anim_end_point w) (anim w) (_bounce_scale w)
    (bounceAnim w) (_king_bounce_scale w) (kingBounceAnim w) (message_boxes w).
Definition set_anim_progress v w :=
  mkWidget (board w) (selected_square w) (piece_pixmaps w) (move_history w)
    (current_move_index w) (animating w) v (pending_move w)
    (anim_start_point w) (anim_end_point w) (anim w) (_bounce_scale w)
    (bounceAnim w) (_king_bounce_scale w) (kingBounceAnim w) (message_boxes w).
Definition set_pending_move v w :=
  mkWidget (board w) (selected_square w) (piece_pixmaps w) (move_history w)
    (current_move_index w) (animating w) (_anim_progress w) v
    (anim_start_point w) (anim_end_point w) (anim w) (_bounce_scale w)
    (bounceAnim w) (_king_bounce_scale w) (kingBounceAnim w) (message_boxes w).
Definition set_anim_start_point v w :=
  mkWidget (board w) (selected_square w) (piece_pixmaps w) (move_history w)
    (current_move_index w) (animating w) (_anim_progress w) (pending_move w)
    v (anim_end_point w) (anim w) (_bounce_scale w)
    (bounceAnim w) (_king_bounce_scale w) (kingBounceAnim w) (message_boxes w).
Definition set_anim_end_point v w :=
  mkWidget (board w) (selected_square w) (piece_pixmaps w) (move_history w)
    (current_move_index w) (animating w) (_anim_progress w) (pending_move w)
    (anim_start_point w) v (anim w) (_bounce_scale w)
    (bounceAnim w) (_king_bounce_scale w) (kingBounceAnim w) (message_boxes w).
Definition set_anim v w :=
  mkWidget (board w) (selected_square w) (piece_pixmaps w) (move_history w)
    (current_move_index w) (animating w) (_anim_progress w) (pending_move w)
    (anim_start_point w) (anim_end_point w) v (_bounce_scale w)
    (bounceAnim w) (_king_bounce_scale w) (kingBounceAnim w) (message_boxes w).
Definition set_bounce_scale v w :=
  mkWidget (board w) (selected_square w) (piece_pixmaps w) (move_history w)
    (current_move_index w) (animating w) (_anim_progress w) (pending_move w)
    (anim_start_point w) (anim_end_point w) (anim w) v
    (bounceAnim w) (_king_bounce_scale w) (kingBounceAnim w) (message_boxes w).
Definition set_bounceAnim v w :=
  mkWidget (board w) (selected_square w) (piece_pixmaps w) (move_history w)
    (current_move_index w) (animating w) (_anim_progress w) (pending_move w)
    (anim_start_point w) (anim_end_point w) (anim w) (_bounce_scale w)
    v (_king_bounce_scale w) (kingBounceAnim w) (message_boxes w).
Definition set_king_bounce_scale v w :=
  mkWidget (board w) (selected_square w) (piece_pixmaps w) (move_history w)
    (current_move_index w) (animating w) (_anim_progress w) (pending_move w)
    (anim_start_point w) (anim_end_point w) (anim w) (_bounce_scale w)
    (bounceAnim w) v (kingBounceAnim w) (message_boxes w).
Definition set_kingBounceAnim v w :=
  mkWidget (board w) (selected_square w) (piece_pixmaps w) (move_history w)
    (current_move_index w) (animating w) (_anim_progress w) (pending_move w)
    (anim_start_point w) (anim_end_point w) (anim w) (_bounce_scale w)
    (bounceAnim w) (_king_bounce_scale w) v (message_boxes w).
Definition show_message_box v w :=
  mkWidget (board w) (selected_square w) (piece_pixmaps w) (move_history w)
    (current_move_index w) (animating w) (_anim_progress w) (pending_move w)
    (anim_start_point w) (anim_end_point w) (anim w) (_bounce_scale w)
    (bounceAnim w) (_king_bounce_scale w) (kingBounceAnim w)
    (message_boxes w ++ [v]).

Definition square_size : Z := 60.
Definition board_size : Z := square_size * 8.

(** [loadPieceImages]: a symbol gets a pixmap when its file loads;
    [loadable] tells which files do.  The pixmap is identified with the
    name of its file. *)
Definition loadPieceImages (loadable : string → bool) : gmap string string :=
  foldl (λ pixmaps kf,
           if loadable kf.2 then <[kf.1 := kf.2]> pixmaps else pixmaps)
        ∅ piece_images.

(** [__init__]. *)
Definition init (loadable : string → bool) : Widget :=
  {| board := initial;
     selected_square := None;
     piece_pixmaps := loadPieceImages loadable;
     move_history := [];
     current_move_index := 0;
     animating := false;
     _anim_progress := 0%Q;
     pending_move := None;
     anim_start_point := (0, 0);
     anim_end_point := (0, 0);
     anim := None;
     _bounce_scale := 1%Q;
     bounceAnim := None;
     _king_bounce_scale := 1%Q;
     kingBounceAnim := None;
     message_boxes := [] |}.

(** [for move in moves: board.push(move)]: the loop ends at the first
    push that raises. *)
Fixpoint push_all (b : Board) (moves : list Move) : PushResult Board :=
  match moves with
  | [] => Pushed b
  | move :: moves =>
      match push b move with
      | Pushed b => push_all b moves
      | PushRaised b => PushRaised b
      end
  end.

(** Pushing [moves] on the initial board. *)
Definition replay (moves : list Move) : PushResult Board :=
  push_all initial moves.

(** [resetBoardToIndex]: [board.reset()], then push
    [move_history[:current_move_index]]. *)
Definition resetBoardToIndex (w : Widget) : Outcome :=
  match replay (slice_to (move_history w) (current_move_index w)) with
  | Pushed b => Returned (set_board b w)
  | PushRaised b => Raised AssertionError (set_board b w)
  end.

(** [bouncePiece]: a fresh one-shot animation of [bounceScale]. *)
Definition bouncePiece (w : Widget) : Widget :=
  set_bounceAnim
    (Some {| property_name := "bounceScale"; duration := 200;
             start_value := 1%Q; key_values := [((1 # 2)%Q, (3 # 2)%Q)];
             end_value := 1%Q; loop_count := 1; easing_curve := OutBounce;
             anim_state := Running |}) w.

(** [startKingBounce]: creates the looping animation unless there is one. *)
Definition startKingBounce (w : Widget) : Widget :=
  match kingBounceAnim w with
  | None =>
      set_kingBounceAnim
        (Some {| property_name := "kingBounceScale"; duration := 800;
                 start_value := 1%Q; key_values := [((1 # 2)%Q, (6 # 5)%Q)];
                 end_value := 1%Q; loop_count := -1; easing_curve := Linear;
                 anim_state := Running |}) w
  | Some _ => w
  end.

(** [stopKingBounce]: a [QPropertyAnimation] object is truthy. *)
Definition stopKingBounce (w : Widget) : Widget :=
  match kingBounceAnim w with
  | Some _ =>
      let w := set_kingBounceAnim None w in
      set_king_bounce_scale 1%Q w
  | None => w
  end.

(** [startAnimation]. *)
Definition startAnimation (move : Move) (w : Widget) : Widget :=
  let w := set_pending_move (Some move) w in
  let source_square := from_square move in
  let dest_square := to_square move in
  let source_col := square_file source_square in
  let source_row := 7 - square_rank source_square in
  let dest_col := square_file dest_square in
  let dest_row := 7 - square_rank dest_square in
  let w := set_anim_start_point
             (source_col * square_size, source_row * square_size) w in
  let w := set_anim_end_point
             (dest_col * square_size, dest_row * square_size) w in
  let w := set_animating true w in
  let w := set_anim_progress 0%Q w in
  set_anim
    (Some {| property_name := "anim_progress"; duration := 150;
             start_value := 0%Q; key_values := []; end_value := 1%Q;
             loop_count := 1; easing_curve := Linear;
             anim_state := Running |}) w.

(** [checkGameStatus]: at most one message box. *)
Definition checkGameStatus (w : Widget) : Widget :=
  if is_checkmate (board w) then
    show_message_box ("Game Over", "Checkmate!") w
  else if is_stalemate (board w) then
    show_message_box ("Game Over", "Stalemate!") w
  else if is_insufficient_material (board w) then
    show_message_box ("Game Over", "Draw by insufficient material.") w
  else w.

(** [finishAnimation], the slot of the move animation's [finished] signal.
    Its first statement is [board.push(pending_move)]: when that raises,
    nothing but the board has changed.  With no pending move,
    [board.push(None)] raises before anything is changed. *)
Definition finishAnimation (w : Widget) : Outcome :=
  match pending_move w with
  | None => Raised AttributeError w
  | Some move =>
      match push (board w) move with
      | PushRaised b => Raised AssertionError (set_board b w)
      | Pushed b =>
          let w := set_board b w in
          let w :=
            if current_move_index w <? Z.of_nat (length (move_history w))
            then set_move_history
                   (slice_to (move_history w) (current_move_index w)) w
            else w in
          let w := set_move_history (move_history w ++ [move]) w in
          let w :=
            set_current_move_index (Z.of_nat (length (move_history w))) w in
          let w := set_pending_move None w in
          let w := set_animating false w in
          let w :=
            if negb (is_check (board w)) then stopKingBounce w else w in
          Returned (checkGameStatus w)
      end
  end.

Inductive Key := Key_Left | Key_Right | Key_Other.

(** [keyPressEvent]: the arrow keys move the cursor and replay; any other
    key goes to [QWidget.keyPressEvent], which leaves the widget alone. *)
Definition keyPressEvent (key : Key) (w : Widget) : Outcome :=
  match key with
  | Key_Left =>
      if 0 <? current_move_index w then
        let w := set_current_move_index (current_move_index w - 1) w in
        resetBoardToIndex w
      else Returned w
  | Key_Right =>
      if current_move_index w <? Z.of_nat (length (move_history w)) then
        let w := set_current_move_index (current_move_index w + 1) w in
        resetBoardToIndex w
      else Returned w
  | Key_Other => Returned w
  end.

(** The move a second click asks for: from the selected square to the
    clicked one, promoting to a queen when [piece], the piece on the
    selected square, is a pawn and the clicked square is on rank 1 or 8. *)
Definition attempted_move (piece : Piece) (selected square : Z) : Move :=
  let move := mkMove selected square None in
  if bool_decide (piece_type piece = PAWN)
     && ((square_rank square =? 0) || (square_rank square =? 7))
  then mkMove selected square (Some QUEEN)
  else move.

(** [mousePressEvent] at pixel [(x, y)].  [piece_at(selected).piece_type]
    raises [AttributeError] when the selected square is empty. *)
Definition mousePressEvent (x y : Z) (w : Widget) : Outcome :=
  if animating w then Returned w
  else
    let col := x / square_size in
    let row := y / square_size in
    let square := chess_square col (7 - row) in
    match selected_square w with
    | None =>
        match piece_at (board w) square with
        | Some piece =>
            if bool_decide (color piece = turn (board w)) then
              let w := set_selected_square (Some square) w in
              Returned (bouncePiece w)
            else Returned w
        | None => Returned w
        end
    | Some selected =>
        match piece_at (board w) selected with
        | None => Raised AttributeError w
        | Some piece =>
            let move := attempted_move piece selected square in
            let w :=
              if bool_decide (move ∈ legal_moves (board w))
              then startAnimation move w
              else w in
            Returned (set_selected_square None w)
        end
    end.

(** *** Painting

    [paintEvent] draws; what it computes for the capture highlights is
    [killable_squares], and its one effect on the widget is that drawing a
    king in check starts the king bounce. *)

(** The square circled for a capturing [move] (the body of the loop that
    fills [killable_squares]). *)
Definition captured_sq (b : Board) (move : Move) : Z :=
  if is_en_passant b move then
    match piece_at b (from_square move) with
    | Some piece =>
        if bool_decide (color piece = WHITE) then to_square move - 8
        else to_square move + 8
    | None => to_square move + 8
    end
  else to_square move.

(** The set [killable_squares] built by [paintEvent]; [None] when the
    block is skipped (nothing selected, or a move is being animated). *)
Definition killable_squares (w : Widget) : option (gset Z) :=
  match selected_square w with
  | Some selected =>
      if animating w then None
      else
        Some (foldl (λ killable move,
                       if bool_decide (from_square move = selected)
                          && is_capture (board w) move
                       then {[captured_sq (board w) move]} ∪ killable
                       else killable)
                    ∅ (legal_moves (board w)))
  | None => None
  end.

(** The destinations marked with a dot: legal moves from the selected
    square that are not captures. *)
Definition legal_dots (w : Widget) : list Z :=
  match selected_square w with
  | Some selected =>
      if animating w then []
      else to_square <$>
             filter (λ move, from_square move = selected
                             ∧ is_capture (board w) move = false)
                    (legal_moves (board w))
  | None => []
  end.

(** One iteration of the loop that draws the pieces. *)
Definition paint_piece (w : Widget) (square : Z) : Widget :=
  match piece_at (board w) square with
  | None => w
  | Some piece =>
      let skipped :=
        match pending_move w with
        | Some pending =>
            animating w && Move_bool pending
            && (bool_decide (square = from_square pending)
                || (bool_decide (square = to_square pending)
                    && bool_decide (color piece ≠ turn (board w))))
        | None => false
        end in
      if skipped then w
      else
        match piece_pixmaps w !! symbol piece with
        | Some _ =>
            if bool_decide (piece_type piece = KING)
               && bool_decide (color piece = turn (board w))
               && is_check (board w)
            then
              match kingBounceAnim w with
              | None => startKingBounce w
              | Some _ => w
              end
            else w
        | None => w
        end
  end.

(** [paintEvent], as a function on the widget. *)
Definition paintEvent (w : Widget) : Widget := foldl paint_piece w SQUARES.

(** ** Events

    What Qt delivers to the widget.  The three animations write their
    property while they run; the move animation then emits [finished]. *)
Inductive Event :=
| MousePress (x y : Z)
| KeyPress (key : Key)
| Paint
| AnimProgress (value : Q)
| AnimFinished
| BounceScale (value : Q)
| BounceFinished
| KingBounceScale (value : Q).

(** The pixel [(x, y)] is inside the widget. *)
Definition inside_widget (x y : Z) : bool :=
  (0 <=? x) && (x <? board_size) && (0 <=? y) && (y <? board_size).

(** The events of this model: presses inside the widget, keys, paints,
    and what an animation says while it runs.  A press outside the
    widget, which Qt can send while a button is held, is not one of
    them. *)
Definition deliverable (w : Widget) (ev : Event) : bool :=
  match ev with
  | MousePress x y => inside_widget x y
  | KeyPress _ | Paint => true
  | AnimProgress _ | AnimFinished => running (anim w)
  | BounceScale _ | BounceFinished => running (bounceAnim w)
  | KingBounceScale _ => running (kingBounceAnim w)
  end.

(** The handler an event runs. *)
Definition handle (ev : Event) (w : Widget) : Outcome :=
  match ev with
  | MousePress x y => mousePressEvent x y w
  | KeyPress key => keyPressEvent key w
  | Paint => Returned (paintEvent w)
  | AnimProgress value => Returned (set_anim_progress value w)
  | AnimFinished => finishAnimation (set_anim (stop <$> anim w) w)
  | BounceScale value => Returned (set_bounce_scale value w)
  | BounceFinished => Returned (set_bounceAnim (stop <$> bounceAnim w) w)
  | KingBounceScale value => Returned (set_king_bounce_scale value w)
  end.

Definition dispatch (w : Widget) (ev : Event) : option Outcome :=
  if deliverable w ev then Some (handle ev w) else None.

(** Runs a sequence of events.  It ends with [None] when an event is not
    one of the model or when a handler raises: the exception leaves the
    handler and the application ends. *)
Fixpoint run (w : Widget) (evs : list Event) : option Widget :=
  match evs with
  | [] => Some w
  | ev :: evs =>
      match dispatch w ev with
      | Some (Returned w) => run w evs
      | Some (Raised _ _) | None => None
      end
  end.

(** The states of a running widget: those a sequence of events leads to,
    every handler having returned. *)
Definition reachable (loadable : string → bool) (w : Widget) : Prop :=
  ∃ evs, run (init loadable) evs = Some w.

(** ** Properties of a state *)

(** The game itself: board, history and cursor. *)
Definition game (w : Widget) : Board * list Move * Z :=
  (board w, move_history w, current_move_index w).

(** The board is the replay of the history up to the cursor. *)
Definition position_is_replay (w : Widget) : Prop :=
  replay (slice_to (move_history w) (current_move_index w))
  = Pushed (board w).

(** The whole history can be replayed: none of its pushes raises. *)
Definition history_replays (w : Widget) : Prop :=
  ∃ b, replay (move_history w) = Pushed b.

(** The board is the replay up to the cursor, the cursor is within the
    history, and the whole history can be replayed. *)
Definition replay_inv (w : Widget) : Prop :=
  position_is_replay w
  ∧ history_replays w
  ∧ 0 ≤ current_move_index w ≤ Z.of_nat (length (move_history w)).

(** [board.push(m)] returns. *)
Definition pushes (b : Board) (m : Move) : bool :=
  match push b m with Pushed _ => true | PushRaised _ => false end.

(** A move is pending exactly while [animating] is set, and exactly then
    the move animation runs. *)
Definition in_flight_inv (w : Widget) : Prop :=
  (pending_move w ≠ None ↔ animating w = true)
  ∧ running (anim w) = animating w.

(** The king bounce, when there is one, runs; when there is none, the
    scale is 1. *)
Definition king_bounce_inv (w : Widget) : Prop :=
  (kingBounceAnim w = None → _king_bounce_scale w = 1%Q)
  ∧ (kingBounceAnim w ≠ None → running (kingBounceAnim w) = true).

(** ** Squares and pixels *)

(** The square [mousePressEvent] resolves a press at pixel [(x, y)] to. *)
Definition clicked_square (x y : Z) : Z :=
  chess_square (x / square_size) (7 - y / square_size).

(** The top-left pixel of the rectangle of [sq]: column [square_file sq]
    and row [7 - square_rank sq], each times [square_size], as
    [paintEvent] and [startAnimation] compute it. *)
Definition square_origin (sq : Z) : Z * Z :=
  (square_file sq * square_size, (7 - square_rank sq) * square_size).

(** The piece on [square] is drawn by [paintEvent] as the king in check:
    it is there, not skipped for the animated move, has a pixmap, and is
    the king of the side to move, which is in check. *)
Definition draws_checked_king (w : Widget) (square : Z) : bool :=
  match piece_at (board w) square with
  | None => false
  | Some piece =>
      negb match pending_move w with
           | Some pending =>
               animating w && Move_bool pending
               && (bool_decide (square = from_square pending)
                   || (bool_decide (square = to_square pending)
                       && bool_decide (color piece ≠ turn (board w))))
           | None => false
           end
      && bool_decide (is_Some (piece_pixmaps w !! symbol piece))
      && bool_decide (piece_type piece = KING)
      && bool_decide (color piece = turn (board w))
      && is_check (board w)
  end.

(** ** Moves and games *)

(** A move the widget can build: both squares on the board, and no
    promotion other than to a queen on rank 1 or 8. *)
Definition wf_move (m : Move) : Prop :=
  0 ≤ from_square m < 64 ∧ 0 ≤ to_square m < 64
  ∧ (promotion m = None
     ∨ promotion m = Some QUEEN
       ∧ (square_rank (to_square m) = 0 ∨ square_rank (to_square m) = 7)).

(** Every move of [moves] is legal on the board the ones before it lead
    to, starting from [b]. *)
Fixpoint legal_from (b : Board) (moves : list Move) : bool :=
  match moves with
  | [] => true
  | m :: moves =>
      bool_decide (m ∈ legal_moves b)
      && match push b m with
         | Pushed b => legal_from b moves
         | PushRaised _ => false
         end
  end.

(** The message box [checkGameStatus] shows for a board, if any. *)
Definition game_over_message (b : Board) : option (string * string) :=
  if is_checkmate b then Some ("Game Over", "Checkmate!")
  else if is_stalemate b then Some ("Game Over", "Stalemate!")
  else if is_insufficient_material b
  then Some ("Game Over", "Draw by insufficient material.")
  else None.

(** ** Restricted runs *)

(** No arrow key arrives while a move is animated. *)
Definition no_key_in_flight (w : Widget) (ev : Event) : bool :=
  match ev with
  | KeyPress Key_Left | KeyPress Key_Right => negb (animating w)
  | _ => true
  end.

(** No arrow key arrives at all. *)
Definition no_arrow_key (w : Widget) (ev : Event) : bool :=
  match ev with
  | KeyPress Key_Left | KeyPress Key_Right => false
  | _ => true
  end.

(** [run], for sequences whose every event satisfies [ok] in the state in
    which it arrives. *)
Fixpoint run_if (ok : Widget → Event → bool) (w : Widget) (evs : list Event)
  : option Widget :=
  match evs with
  | [] => Some w
  | ev :: evs =>
      if ok w ev then
        match dispatch w ev with
        | Some (Returned w) => run_if ok w evs
        | Some (Raised _ _) | None => None
        end
      else None
  end.

(** ** Invariants of runs *)

(** The selected square is on the board, and the pending move and the
    moves of the history are moves the widget can build. *)
Definition moves_wf (w : Widget) : Prop :=
  (∀ s, selected_square w = Some s → 0 ≤ s < 64)
  ∧ (∀ m, pending_move w = Some m → wf_move m)
  ∧ Forall wf_move (move_history w).

(** The state of a game played by the rules: the board is the replay,
    the cursor is within the history, a move is pending exactly while
    animating, the history is a legal game and a pending move is legal on
    the board shown. *)
Definition legal_play (w : Widget) : Prop :=
  replay_inv w
  ∧ (pending_move w ≠ None ↔ animating w = true)
  ∧ running (anim w) = animating w
  ∧ legal_from initial (move_history w) = true
  ∧ ∀ m, pending_move w = Some m → m ∈ legal_moves (board w).

(** A move is pending exactly while animating, nothing is selected then,
    and a selected square holds a piece of the side to move. *)
Definition selection_holds (w : Widget) : Prop :=
  (pending_move w ≠ None ↔ animating w = true)
  ∧ running (anim w) = animating w
  ∧ (animating w = true → selected_square w = None)
  ∧ ∀ s, selected_square w = Some s →
         ∃ piece, piece_at (board w) s = Some piece
                  ∧ color piece = turn (board w).

End Widget.

(** ** An executable rules engine

    [MiniChess] implements the interface for standard chess without
    castling: piece placement, side to move, en-passant square and move
    counters; pseudo-legal generation for every piece, en passant and
    promotion; legality by king safety.  [push] follows python-chess: the
    null move only passes the turn, the piece that arrives takes the
    colour of the side to move, and a move from an empty square raises
    after the en-passant square and the counters have changed. *)
Module MiniChess.

Record Position := mkPosition {
  squares : list (option Piece);
  side : Color;
  ep_square : option Z;
  halfmove_clock : Z;
  fullmove_number : Z
}.

Definition on_board (sq : Z) : bool := (0 <=? sq) && (sq <? 64).

Definition at_sq (p : list (option Piece)) (sq : Z) : option Piece :=
  if on_board sq then default None (p !! Z.to_nat sq) else None.

Definition put (p : list (option Piece)) (sq : Z) (v : option Piece)
  : list (option Piece) :=
  if on_board sq then <[Z.to_nat sq := v]> p else p.

Definition back_rank (c : Color) : list (option Piece) :=
  (λ t, Some (mkPiece t c)) <$>
    [ROOK; KNIGHT; BISHOP; QUEEN; KING; BISHOP; KNIGHT; ROOK].

Definition start : Position :=
  {| squares :=
       back_rank WHITE ++ replicate 8 (Some (mkPiece PAWN WHITE))
       ++ replicate 32 None
       ++ replicate 8 (Some (mkPiece PAWN BLACK)) ++ back_rank BLACK;
     side := WHITE;
     ep_square := None;
     halfmove_clock := 0;
     fullmove_number := 1 |}.

(** The square [d] = (files, ranks) away from [sq], if on the board. *)
Definition shift (sq : Z) (d : Z * Z) : option Z :=
  let f := square_file sq + d.1 in
  let r := square_rank sq + d.2 in
  if (0 <=? f) && (f <? 8) && (0 <=? r) && (r <? 8)
  then Some (chess_square f r) else None.

Definition knight_deltas : list (Z * Z) :=
  [(1, 2); (2, 1); (2, -1); (1, -2); (-1, -2); (-2, -1); (-2, 1); (-1, 2)].
Definition king_deltas : list (Z * Z) :=
  [(0, 1); (1, 1); (1, 0); (1, -1); (0, -1); (-1, -1); (-1, 0); (-1, 1)].
Definition bishop_dirs : list (Z * Z) := [(1, 1); (1, -1); (-1, -1); (-1, 1)].
Definition rook_dirs : list (Z * Z) := [(0, 1); (1, 0); (0, -1); (-1, 0)].
Definition pawn_captures (c : Color) : list (Z * Z) :=
  match c with WHITE => [(-1, 1); (1, 1)] | BLACK => [(-1, -1); (1, -1)] end.

(** The squares seen from [sq] along [d], up to and including the first
    occupied one. *)
Fixpoint ray (p : list (option Piece)) (sq : Z) (d : Z * Z) (fuel : nat)
  : list Z :=
  match fuel with
  | O => []
  | S fuel =>
      match shift sq d with
      | None => []
      | Some t =>
          match at_sq p t with
          | None => t :: ray p t d fuel
          | Some _ => [t]
          end
      end
  end.

(** The squares a piece [q] standing on [sq] attacks. *)
Definition attacks (p : list (option Piece)) (sq : Z) (q : Piece) : list Z :=
  match piece_type q with
  | PAWN => omap (shift sq) (pawn_captures (color q))
  | KNIGHT => omap (shift sq) knight_deltas
  | KING => omap (shift sq) king_deltas
  | BISHOP => concat ((λ d, ray p sq d 7) <$> bishop_dirs)
  | ROOK => concat ((λ d, ray p sq d 7) <$> rook_dirs)
  | QUEEN => concat ((λ d, ray p sq d 7) <$> (rook_dirs ++ bishop_dirs))
  end.

Definition is_attacked_by (p : list (option Piece)) (c : Color) (sq : Z)
  : bool :=
  existsb (λ s, match at_sq p s with
                | Some q => bool_decide (color q = c)
                            && bool_decide (sq ∈ attacks p s q)
                | None => false
                end) SQUARES.

Definition king (p : list (option Piece)) (c : Color) : option Z :=
  List.find (λ s, bool_decide (at_sq p s = Some (mkPiece KING c))) SQUARES.

Definition in_check (p : list (option Piece)) (c : Color) : bool :=
  match king p c with
  | Some k => is_attacked_by p (opposite c) k
  | None => false
  end.

Definition has_color (p : list (option Piece)) (c : Color) (sq : Z) : bool :=
  match at_sq p sq with
  | Some q => bool_decide (color q = c)
  | None => false
  end.

Definition is_en_passant (b : Position) (m : Move) : bool :=
  bool_decide (ep_square b = Some (to_square m))
  && match at_sq (squares b) (from_square m) with
     | Some q => bool_decide (piece_type q = PAWN)
     | None => false
     end
  && bool_decide (Z.abs (to_square m - from_square m) ∈ [7; 9])
  && bool_decide (at_sq (squares b) (to_square m) = None).

Definition is_capture (b : Position) (m : Move) : bool :=
  (negb (from_square m =? to_square m)
   && (has_color (squares b) (opposite (side b)) (from_square m)
       || has_color (squares b) (opposite (side b)) (to_square m)))
  || is_en_passant b m.

Definition is_zeroing (b : Position) (m : Move) : bool :=
  negb (from_square m =? to_square m)
  && (match at_sq (squares b) (from_square m) with
      | Some q => bool_decide (piece_type q = PAWN)
      | None => false
      end
      || match at_sq (squares b) (to_square m) with
         | Some q => bool_decide (piece_type q = PAWN)
         | None => false
         end
      || has_color (squares b) (opposite (side b)) (from_square m)
      || has_color (squares b) (opposite (side b)) (to_square m)).

Definition push (b : Position) (m : Move) : PushResult Position :=
  let full :=
    match side b with
    | BLACK => fullmove_number b + 1
    | WHITE => fullmove_number b
    end in
  if negb (Move_bool m) then
    Pushed (mkPosition (squares b) (opposite (side b)) None
                       (halfmove_clock b + 1) full)
  else
    let half := if is_zeroing b m then 0 else halfmove_clock b + 1 in
    match at_sq (squares b) (from_square m) with
    | None => PushRaised (mkPosition (squares b) (side b) None half full)
    | Some q =>
        let p := put (squares b) (from_square m) None in
        let diff := to_square m - from_square m in
        let pawn := bool_decide (piece_type q = PAWN) in
        let ep :=
          if pawn && (diff =? 16) && (square_rank (from_square m) =? 1)
          then Some (from_square m + 8)
          else if pawn && (diff =? -16) && (square_rank (from_square m) =? 6)
          then Some (from_square m - 8)
          else None in
        let p :=
          if pawn && is_en_passant b m then
            put p
                (to_square m + match side b with WHITE => -8 | BLACK => 8 end)
                None
          else p in
        let t := default (piece_type q) (promotion m) in
        Pushed (mkPosition (put p (to_square m) (Some (mkPiece t (side b))))
                           (opposite (side b)) ep half full)
    end.

Definition promotions (c : Color) (from to : Z) : list Move :=
  if square_rank to =? match c with WHITE => 7 | BLACK => 0 end
  then (λ t, mkMove from to (Some t)) <$> [QUEEN; ROOK; BISHOP; KNIGHT]
  else [mkMove from to None].

Definition pawn_moves (b : Position) (sq : Z) : list Move :=
  let c := side b in
  let p := squares b in
  let dir := match c with WHITE => 1 | BLACK => -1 end in
  let pushes :=
    match shift sq (0, dir) with
    | Some t =>
        if bool_decide (at_sq p t = None) then
          promotions c sq t
          ++ (if square_rank sq =? match c with WHITE => 1 | BLACK => 6 end
              then match shift t (0, dir) with
                   | Some t2 =>
                       if bool_decide (at_sq p t2 = None)
                       then [mkMove sq t2 None] else []
                   | None => []
                   end
              else [])
        else []
    | None => []
    end in
  let captures :=
    omap (shift sq) (pawn_captures c) ≫= λ t,
      if has_color p (opposite c) t
         || (bool_decide (ep_square b = Some t)
             && bool_decide (at_sq p t = None))
      then promotions c sq t else [] in
  pushes ++ captures.

Definition pseudo_legal_from (b : Position) (sq : Z) : list Move :=
  match at_sq (squares b) sq with
  | Some q =>
      if bool_decide (color q = side b) then
        match piece_type q with
        | PAWN => pawn_moves b sq
        | _ =>
            (λ t, mkMove sq t None) <$>
              filter (λ t, has_color (squares b) (side b) t = false)
                     (attacks (squares b) sq q)
        end
      else []
  | None => []
  end.

(** The king of the side that moved is not attacked after [m]. *)
Definition leaves_king_safe (b : Position) (m : Move) : bool :=
  match push b m with
  | Pushed b' => negb (in_check (squares b') (side b))
  | PushRaised _ => false
  end.

Definition legal_moves (b : Position) : list Move :=
  filter (λ m, leaves_king_safe b m = true) (SQUARES ≫= pseudo_legal_from b).

Definition is_check (b : Position) : bool := in_check (squares b) (side b).

Definition is_checkmate (b : Position) : bool :=
  is_check b && bool_decide (legal_moves b = []).

Definition is_stalemate (b : Position) : bool :=
  negb (is_check b) && bool_decide (legal_moves b = []).

Definition count_pieces (p : list (option Piece)) (f : Piece → bool) : nat :=
  length (List.filter (λ s, match at_sq p s with
                            | Some q => f q
                            | None => false
                            end) SQUARES).

Definition is_type (t : PieceType) (q : Piece) : bool :=
  bool_decide (piece_type q = t).
Definition is_color (c : Color) (q : Piece) : bool :=
  bool_decide (color q = c).

Definition dark_square (sq : Z) : bool :=
  Z.even (square_file sq + square_rank sq).

Definition has_insufficient_material (p : list (option Piece)) (c : Color)
  : bool :=
  let mine t := count_pieces p (λ q, is_color c q && is_type t q) in
  let all t := count_pieces p (is_type t) in
  if bool_decide (mine PAWN + mine ROOK + mine QUEEN ≠ 0)%nat then false
  else if bool_decide (mine KNIGHT ≠ 0)%nat then
    bool_decide (count_pieces p (is_color c) ≤ 2)%nat
    && bool_decide (count_pieces p
                      (λ q, is_color (opposite c) q
                            && negb (is_type KING q)
                            && negb (is_type QUEEN q)) = 0)%nat
  else if bool_decide (mine BISHOP ≠ 0)%nat then
    let bishops_on dark :=
      length (List.filter
                (λ s, match at_sq p s with
                      | Some q => is_type BISHOP q
                                  && bool_decide (dark_square s = dark)
                      | None => false
                      end) SQUARES) in
    (bool_decide (bishops_on true = 0)%nat
     || bool_decide (bishops_on false = 0)%nat)
    && bool_decide (all PAWN = 0)%nat && bool_decide (all KNIGHT = 0)%nat
  else true.

Definition is_insufficient_material (b : Position) : bool :=
  has_insufficient_material (squares b) WHITE
  && has_insufficient_material (squares b) BLACK.

(** A legal move can be pushed. *)
Lemma push_legal (b : Position) (m : Move) :
  m ∈ legal_moves b → ∃ b', push b m = Pushed b'.
Proof.
  intros [Hsafe _]%list_elem_of_filter. unfold leaves_king_safe in Hsafe.
  destruct (push b m) as [b'|b']; [by exists b' | done].
Qed.

#[global] Instance engine : RulesEngine :=
  Build_RulesEngine Position start push legal_moves
    (λ b sq, at_sq (squares b) sq) side is_check is_capture is_en_passant
    is_checkmate is_stalemate is_insufficient_material push_legal.

End MiniChess.

(** ** Concrete games

    Event sequences run on [MiniChess], with every image file loadable.
    Squares are numbered as in python-chess (a1 = 0, b1 = 1, ..., h8 = 63). *)
Module Games.
Import MiniChess.

Definition a6 : Z := 40.
Definition a7 : Z := 48.
Definition c5 : Z := 34.
Definition c7 : Z := 50.
Definition d1 : Z := 3.
Definition d5 : Z := 35.
Definition d6 : Z := 43.
Definition d7 : Z := 51.
Definition e2 : Z := 12.
Definition e4 : Z := 28.
Definition e5 : Z := 36.
Definition e7 : Z := 52.
Definition f3 : Z := 21.
Definition f5 : Z := 37.
Definition f7 : Z := 53.
Definition g1 : Z := 6.
Definition h5 : Z := 39.

(** A press in the middle of the square [sq] as the widget draws it. *)
Definition click_on (sq : Z) : Event :=
  MousePress (square_file sq * square_size + 30)
             ((7 - square_rank sq) * square_size + 30).

(** Select, choose the destination, let the animation finish. *)
Definition play (from to : Z) : list Event :=
  [click_on from; click_on to; AnimFinished].

Definition all_loadable (file : string) : bool := true.

Definition fresh : Widget := init all_loadable.

(** The widget after [evs], from a fresh one. *)
Definition after (evs : list Event) : Widget := default fresh (run fresh evs).

(** 1. e4 e5 2. Nf3, back to the position after 1. e4, then c7-c5 started:
    history [e2e4; e7e5; g1f3], cursor 1, pending c7c5. *)
Definition branching : list Event :=
  play e2 e4 ++ play e7 e5 ++ play g1 f3
  ++ [KeyPress Key_Left; KeyPress Key_Left; click_on c7; click_on c5].

(** 1. e4, back to the start, e2 selected, forward again: the board shows
    the position after 1. e4 while e2, now empty, is still selected. *)
Definition stale_selection : list Event :=
  play e2 e4 ++ [KeyPress Key_Left; click_on e2; KeyPress Key_Right].

(** 1. e4, back to the start, e2 selected. *)
Definition selected_at_start : list Event :=
  play e2 e4 ++ [KeyPress Key_Left; click_on e2].

(** 1. e4, then e7-e5 started and still being animated. *)
Definition mid_animation : list Event :=
  play e2 e4 ++ [click_on e7; click_on e5].

(** 1. e4 f5 2. Qh5+, painted: Black is in check and the king bounces. *)
Definition check_painted : list Event :=
  play e2 e4 ++ play f7 f5 ++ play d1 h5 ++ [Paint].

(** 1. e4 a6 2. e5 d5, then e5 selected: White can take d5 en passant. *)
Definition white_en_passant : list Event :=
  play e2 e4 ++ play a7 a6 ++ play e4 e5 ++ play d7 d5 ++ [click_on e5].

(** 1. a3 d5 2. a4 d4 3. e4, then d4 selected: Black can take e4 en
    passant. *)
Definition black_en_passant : list Event :=
  play 8 16 ++ play d7 d5 ++ play 16 24 ++ play d5 27 ++ play e2 e4
  ++ [click_on 27].

(** 1. e4 e5, one step back: the cursor is at 1 of 2. *)
Definition one_back : list Event :=
  play e2 e4 ++ play e7 e5 ++ [KeyPress Key_Left].

(** 1. e4 f5 2. Qh5+, painted, then g7-g6 started. *)
Definition check_answered : list Event :=
  check_painted ++ [click_on 54; click_on 46].

(** 1. f3 e5 2. g4 Qh4#. *)
Definition fools_mate : list Event :=
  play 13 21 ++ play e7 e5 ++ play 14 30 ++ play 59 31.

(** 1. e4 d5, then exd5 started and the Left key pressed twice while it
    is animated: the board is back at the start, where e4 is empty. *)
Definition rewound_capture : list Event :=
  play e2 e4 ++ play d7 d5
  ++ [click_on e4; click_on d5; KeyPress Key_Left; KeyPress Key_Left].

End Games.

(** * Verification *)

Section Verification.
Context {E : RulesEngine}.
Implicit Types (w : Widget) (ev : Event) (m : Move).

(** ** Slices and replay *)

Lemma slice_to_nonneg {A} (l : list A) (k : Z) :
  0 ≤ k → slice_to l k = take (Z.to_nat k) l.
Proof.
  intros Hk. unfold slice_to.
  destruct (k <? 0) eqn:Hneg; [apply Z.ltb_lt in Hneg; lia | done].
Qed.

Lemma slice_to_ge {A} (l : list A) (k : Z) :
  Z.of_nat (length l) ≤ k → slice_to l k = l.
Proof.
  intros Hk. rewrite slice_to_nonneg by lia. apply take_ge. lia.
Qed.

Lemma slice_to_is_take {A} (l : list A) (k : Z) :
  ∃ n, slice_to l k = take n l.
Proof. unfold slice_to. case_match; eauto. Qed.

Lemma push_all_app (b : Board) (l k : list Move) :
  push_all b (l ++ k)
  = match push_all b l with
    | Pushed b' => push_all b' k
    | PushRaised b' => PushRaised b'
    end.
Proof.
  revert b. induction l as [|a l IH]; intros b; simpl; [done|].
  destruct (push b a); [apply IH | done].
Qed.

Lemma push_all_one (b : Board) m : push_all b [m] = push b m.
Proof. simpl. by destruct (push b m). Qed.

Lemma replay_snoc (l : list Move) m b :
  replay l = Pushed b → replay (l ++ [m]) = push b m.
Proof.
  unfold replay. intros Hl. by rewrite push_all_app, Hl, push_all_one.
Qed.

(** What can be replayed can be replayed up to any point. *)
Lemma replay_take (l : list Move) (n : nat) b :
  replay l = Pushed b → ∃ b', replay (take n l) = Pushed b'.
Proof.
  unfold replay. rewrite <- (take_drop n l) at 1. rewrite push_all_app.
  destruct (push_all initial (take n l)) as [b'|b']; [eauto | done].
Qed.

(** ** What each handler leaves alone *)

Lemma startKingBounce_idem w : startKingBounce (startKingBounce w) = startKingBounce w.
Proof. unfold startKingBounce. by destruct (kingBounceAnim w) eqn:Hk; simpl; rewrite ?Hk. Qed.

Lemma paint_piece_cases w sq :
  paint_piece w sq = w ∨ paint_piece w sq = startKingBounce w.
Proof. unfold paint_piece. repeat case_match; auto. Qed.

Lemma paintEvent_cases w :
  paintEvent w = w ∨ paintEvent w = startKingBounce w.
Proof.
  unfold paintEvent. generalize SQUARES. intros l. revert w.
  induction l as [|sq l IH]; intros w; simpl; [by left|].
  destruct (paint_piece_cases w sq) as [-> | ->]; [apply IH|].
  right. destruct (IH (startKingBounce w)) as [-> | ->]; [done|].
  apply startKingBounce_idem.
Qed.

Lemma game_fields w w' :
  game w = game w' →
  board w = board w' ∧ move_history w = move_history w'
  ∧ current_move_index w = current_move_index w'.
Proof. by intros [= -> -> ->]. Qed.

Lemma mousePressEvent_game x y w :
  game (state_of (mousePressEvent x y w)) = game w.
Proof. unfold mousePressEvent. repeat case_match; done. Qed.

Lemma paintEvent_game w : game (paintEvent w) = game w.
Proof.
  destruct (paintEvent_cases w) as [-> | ->]; [done|].
  unfold startKingBounce. by case_match.
Qed.

Lemma paintEvent_frame w :
  board (paintEvent w) = board w
  ∧ selected_square (paintEvent w) = selected_square w
  ∧ move_history (paintEvent w) = move_history w
  ∧ current_move_index (paintEvent w) = current_move_index w
  ∧ pending_move (paintEvent w) = pending_move w
  ∧ animating (paintEvent w) = animating w
  ∧ anim (paintEvent w) = anim w
  ∧ message_boxes (paintEvent w) = message_boxes w.
Proof.
  destruct (paintEvent_cases w) as [-> | ->]; [done|].
  unfold startKingBounce. by case_match.
Qed.

(** [resetBoardToIndex] changes the board only, and [keyPressEvent] the
    board and the cursor only, whether they return or raise. *)
Lemma resetBoardToIndex_sets_board w :
  state_of (resetBoardToIndex w)
  = set_board (board (state_of (resetBoardToIndex w))) w.
Proof. unfold resetBoardToIndex. by destruct (replay _). Qed.

Lemma keyPressEvent_frame key w :
  selected_square (state_of (keyPressEvent key w)) = selected_square w
  ∧ move_history (state_of (keyPressEvent key w)) = move_history w
  ∧ pending_move (state_of (keyPressEvent key w)) = pending_move w
  ∧ animating (state_of (keyPressEvent key w)) = animating w
  ∧ anim (state_of (keyPressEvent key w)) = anim w
  ∧ message_boxes (state_of (keyPressEvent key w)) = message_boxes w
  ∧ kingBounceAnim (state_of (keyPressEvent key w)) = kingBounceAnim w
  ∧ _king_bounce_scale (state_of (keyPressEvent key w))
    = _king_bounce_scale w.
Proof.
  unfold keyPressEvent.
  destruct key; repeat case_match; try done;
    by rewrite resetBoardToIndex_sets_board.
Qed.

(** ** The handlers, case by case *)

Lemma resetBoardToIndex_returns w b :
  replay (slice_to (move_history w) (current_move_index w)) = Pushed b →
  resetBoardToIndex w = Returned (set_board b w).
Proof. intros Hb. unfold resetBoardToIndex. by rewrite Hb. Qed.

Lemma resetBoardToIndex_fixed w :
  position_is_replay w → resetBoardToIndex w = Returned w.
Proof.
  intros Hw. rewrite (resetBoardToIndex_returns w (board w) Hw).
  by destruct w.
Qed.

Lemma resetBoardToIndex_returned w w' :
  resetBoardToIndex w = Returned w' →
  position_is_replay w' ∧ w' = set_board (board w') w.
Proof.
  unfold resetBoardToIndex, position_is_replay.
  destruct (replay _) as [b|b] eqn:Hb; [|done]. by intros [= <-].
Qed.

Lemma finishAnimation_none w :
  pending_move w = None → finishAnimation w = Raised AttributeError w.
Proof. intros Hm. unfold finishAnimation. by rewrite Hm. Qed.

(** The push raises: nothing but the board has changed. *)
Lemma finishAnimation_raises w m b :
  pending_move w = Some m → push (board w) m = PushRaised b →
  finishAnimation w = Raised AssertionError (set_board b w).
Proof. intros Hm Hb. unfold finishAnimation. by rewrite Hm, Hb. Qed.

(** The push returns: everything the commit does, but for the king
    bounce. *)
Lemma finishAnimation_commit w m b :
  pending_move w = Some m → push (board w) m = Pushed b →
  ∃ w', finishAnimation w = Returned w'
        ∧ board w' = b
        ∧ move_history w'
          = slice_to (move_history w) (current_move_index w) ++ [m]
        ∧ current_move_index w' = Z.of_nat (length (move_history w'))
        ∧ pending_move w' = None ∧ animating w' = false
        ∧ anim w' = anim w ∧ selected_square w' = selected_square w
        ∧ message_boxes w'
          = message_boxes w ++ option_list (game_over_message b).
Proof.
  intros Hm Hb. unfold finishAnimation. rewrite Hm, Hb.
  eexists. split; [done|]. clear Hm Hb.
  destruct w as [b0 sel pix h c an prog pend sp ep a bs ba ks ka mb].
  unfold checkGameStatus, game_over_message, stopKingBounce. simpl.
  assert ((if c <? Z.of_nat (length h) then slice_to h c else h)
          = slice_to h c) as Hslice.
  { destruct (c <? Z.of_nat (length h)) eqn:Hlt; [done|].
    apply Z.ltb_ge in Hlt. by rewrite slice_to_ge. }
  destruct (c <? Z.of_nat (length h)); simpl in *; rewrite <- ?Hslice;
    destruct (is_check b); simpl; destruct ka; simpl;
    destruct (is_checkmate b) eqn:H1; simpl; rewrite ?H1;
    destruct (is_stalemate b) eqn:H2; simpl; rewrite ?H1, ?H2;
    destruct (is_insufficient_material b) eqn:H3; simpl;
    rewrite ?H1, ?H2, ?H3; simpl; by rewrite ?app_nil_r.
Qed.

(** A commit happened: the push returned. *)
Lemma finishAnimation_returned w w' :
  finishAnimation w = Returned w' →
  ∃ m, pending_move w = Some m ∧ push (board w) m = Pushed (board w').
Proof.
  intros Hfin. destruct (pending_move w) as [m|] eqn:Hm;
    [|by rewrite finishAnimation_none in Hfin].
  exists m. split; [done|].
  destruct (push (board w) m) as [b|b] eqn:Hb;
    [|by rewrite (finishAnimation_raises w m b) in Hfin].
  destruct (finishAnimation_commit w m b Hm Hb) as (w'' & Hfin' & <- & _).
  congruence.
Qed.

(** The finished signal raised: the state is the one before it, but for
    the board and the stopped animation. *)
Lemma finishAnimation_raised w e w' :
  finishAnimation w = Raised e w' → w' = set_board (board w') w.
Proof.
  intros Hfin. destruct (pending_move w) as [m|] eqn:Hm.
  - destruct (push (board w) m) as [b|b] eqn:Hb.
    + destruct (finishAnimation_commit w m b Hm Hb) as (w'' & Hfin' & _).
      congruence.
    + rewrite (finishAnimation_raises w m b) in Hfin by done.
      by injection Hfin as <- <-.
  - rewrite finishAnimation_none in Hfin by done.
    injection Hfin as <- <-. by destruct w.
Qed.

(** The clicked square, in the words of [clicked_square]. *)
Lemma mousePressEvent_cases x y w :
  mousePressEvent x y w
  = if animating w then Returned w
    else match selected_square w with
         | None =>
             match piece_at (board w) (clicked_square x y) with
             | Some piece =>
                 if bool_decide (color piece = turn (board w))
                 then Returned (bouncePiece
                                  (set_selected_square
                                     (Some (clicked_square x y)) w))
                 else Returned w
             | None => Returned w
             end
         | Some selected =>
             match piece_at (board w) selected with
             | None => Raised AttributeError w
             | Some piece =>
                 let move :=
                   attempted_move piece selected (clicked_square x y) in
                 Returned (set_selected_square None
                             (if bool_decide (move ∈ legal_moves (board w))
                              then startAnimation move w else w))
             end
         end.
Proof. done. Qed.

(** ** Runs *)

(** Induction over the events that led to a state. *)
Lemma run_invariant (P : Widget → Prop) :
  (∀ w ev w', P w → deliverable w ev = true → handle ev w = Returned w' →
              P w') →
  ∀ evs w w', P w → run w evs = Some w' → P w'.
Proof.
  intros Hstep evs. induction evs as [|ev evs IH]; intros w w' Hw; simpl.
  - by intros [= <-].
  - unfold dispatch. destruct (deliverable w ev) eqn:Hd; [|done].
    destruct (handle ev w) as [w1|e w1] eqn:Hev; [|done].
    apply IH. by eapply Hstep.
Qed.

Lemma run_app w (l k : list Event) :
  run w (l ++ k) = run w l ≫= λ w', run w' k.
Proof.
  revert w. induction l as [|ev l IH]; intros w; simpl; [done|].
  destruct (dispatch w ev) as [[w1|e w1]|]; [apply IH | done..].
Qed.

(** One more event from a reachable state. *)
Lemma reachable_step loadable w ev w' :
  reachable loadable w → deliverable w ev = true →
  handle ev w = Returned w' → reachable loadable w'.
Proof.
  intros [evs Hrun] Hd Hev. exists (evs ++ [ev]).
  rewrite run_app, Hrun. simpl. unfold dispatch. by rewrite Hd, Hev.
Qed.

(** ** The board is the replay of the history up to the cursor *)

Lemma replay_inv_game w w' :
  game w' = game w → replay_inv w → replay_inv w'.
Proof.
  unfold replay_inv, position_is_replay, history_replays.
  intros (Hb & Hh & Hc)%game_fields. by rewrite Hb, Hh, Hc.
Qed.

(** In a state with the invariant the arrow keys return. *)
Lemma keyPressEvent_returns key w :
  replay_inv w →
  ∃ w', keyPressEvent key w = Returned w'
        ∧ replay_inv w'
        ∧ move_history w' = move_history w
        ∧ current_move_index w'
          = match key with
            | Key_Left => Z.max 0 (current_move_index w - 1)
            | Key_Right =>
                Z.min (Z.of_nat (length (move_history w)))
                      (current_move_index w + 1)
            | Key_Other => current_move_index w
            end.
Proof.
  intros Hw. pose proof Hw as (Hrep & [ball Hall] & Hc).
  unfold keyPressEvent.
  assert (∀ c', 0 ≤ c' ≤ Z.of_nat (length (move_history w)) →
    ∃ w', resetBoardToIndex (set_current_move_index c' w) = Returned w'
          ∧ replay_inv w' ∧ move_history w' = move_history w
          ∧ current_move_index w' = c') as Hreset.
  { intros c' Hc'.
    destruct (replay_take (move_history w) (Z.to_nat c') ball Hall)
      as [b Hb].
    exists (set_board b (set_current_move_index c' w)).
    split_and!; [|split_and!|done..].
    - apply resetBoardToIndex_returns. simpl. by rewrite slice_to_nonneg by lia.
    - unfold position_is_replay. simpl. by rewrite slice_to_nonneg by lia.
    - by exists ball.
    - simpl. lia.
    - simpl. lia. }
  destruct key.
  - destruct (0 <? current_move_index w) eqn:Hlt.
    + apply Z.ltb_lt in Hlt.
      destruct (Hreset (current_move_index w - 1)) as (w' & ? & ? & ? & ?);
        [lia|]. exists w'. split_and!; [done..|lia].
    + apply Z.ltb_ge in Hlt. exists w. split_and!; [done..|lia].
  - destruct (current_move_index w <? Z.of_nat (length (move_history w)))
      eqn:Hlt.
    + apply Z.ltb_lt in Hlt.
      destruct (Hreset (current_move_index w + 1)) as (w' & ? & ? & ? & ?);
        [lia|]. exists w'. split_and!; [done..|lia].
    + apply Z.ltb_ge in Hlt. exists w. split_and!; [done..|lia].
  - by exists w.
Qed.

Lemma finishAnimation_replay_inv w w' :
  replay_inv w → finishAnimation w = Returned w' → replay_inv w'.
Proof.
  intros (Hrep & _ & Hc) Hfin.
  destruct (finishAnimation_returned w w' Hfin) as (m & Hm & Hb).
  destruct (finishAnimation_commit w m _ Hm Hb)
    as (w'' & Hfin' & _ & Hh & Hlen & _).
  rewrite Hfin in Hfin'. injection Hfin' as <-.
  assert (replay (move_history w') = Pushed (board w')) as Hall.
  { rewrite Hh. unfold position_is_replay in Hrep.
    by rewrite (replay_snoc _ m _ Hrep). }
  split_and!.
  - unfold position_is_replay. by rewrite Hlen, slice_to_ge by lia.
  - by exists (board w').
  - lia.
  - lia.
Qed.

Lemma handle_replay_inv ev w w' :
  replay_inv w → handle ev w = Returned w' → replay_inv w'.
Proof.
  intros Hw. destruct ev; simpl.
  - intros Hev. eapply replay_inv_game, Hw.
    by rewrite <- (mousePressEvent_game x y w), Hev.
  - destruct (keyPressEvent_returns key w Hw) as (w1 & -> & Hw1 & _).
    by intros [= <-].
  - intros [= <-]. eapply replay_inv_game, Hw. apply paintEvent_game.
  - by intros [= <-].
  - intros Hfin. eapply finishAnimation_replay_inv, Hfin. done.
  - by intros [= <-].
  - by intros [= <-].
  - by intros [= <-].
Qed.

Lemma reachable_replay_inv loadable w : reachable loadable w → replay_inv w.
Proof.
  intros [evs Hrun]. revert Hrun. apply run_invariant.
  - intros ???? _. by apply handle_replay_inv.
  - split_and!; try done. by exists initial.
Qed.

(** C1: in every state of the running widget the replay of
    [move_history[:current_move_index]] from the initial position returns
    and gives the board, the cursor being within the history; the board
    [finishAnimation] gets by pushing the committed move on the current
    one is the board [resetBoardToIndex] rebuilds for the new history and
    cursor; and replaying again with the same history and cursor gives
    the same board. *)
Theorem board_is_replay loadable w :
  reachable loadable w →
  replay (slice_to (move_history w) (current_move_index w))
  = Pushed (board w)
  ∧ 0 ≤ current_move_index w ≤ Z.of_nat (length (move_history w))
  ∧ replay (take (Z.to_nat (current_move_index w)) (move_history w))
    = Pushed (board w)
  ∧ (∀ w', finishAnimation w = Returned w' →
       (∃ m, pending_move w = Some m ∧ push (board w) m = Pushed (board w'))
       ∧ resetBoardToIndex w' = Returned w')
  ∧ resetBoardToIndex w = Returned w
  ∧ ∀ w1 w2, resetBoardToIndex w = Returned w1 →
             resetBoardToIndex w1 = Returned w2 → w2 = w1.
Proof.
  intros Hreach. pose proof (reachable_replay_inv _ _ Hreach) as Hinv.
  destruct Hinv as (Hw & Hall & Hc).
  assert (resetBoardToIndex w = Returned w) as Hfix
    by by apply resetBoardToIndex_fixed.
  split_and!; [done | lia | lia | | | done |].
  - unfold position_is_replay in Hw. by rewrite slice_to_nonneg in Hw by lia.
  - intros w' Hfin. split; [by apply finishAnimation_returned|].
    apply resetBoardToIndex_fixed.
    by destruct (finishAnimation_replay_inv w w') as (? & _).
  - intros w1 w2. rewrite Hfix. intros [= <-]. rewrite Hfix. by intros [= <-].
Qed.

(** C2: committing the pending move [m] with the cursor [c] before the end
    of the history [h] leaves the history [h[:c] ++ [m]] and the cursor at
    its length; with [0 ≤ c] that is the first [c] moves of [h] followed by
    [m], and the cursor [c + 1].  The move is committed exactly when
    [board.push] returns; when it raises, the history and the cursor are
    left as they were. *)
Theorem finishAnimation_truncates w m :
  pending_move w = Some m →
  current_move_index w < Z.of_nat (length (move_history w)) →
  (∀ w', finishAnimation w = Returned w' →
     move_history w'
     = slice_to (move_history w) (current_move_index w) ++ [m]
     ∧ current_move_index w' = Z.of_nat (length (move_history w'))
     ∧ (0 ≤ current_move_index w →
        move_history w'
        = take (Z.to_nat (current_move_index w)) (move_history w) ++ [m]
        ∧ current_move_index w' = current_move_index w + 1))
  ∧ (pushes (board w) m = true → ∃ w', finishAnimation w = Returned w')
  ∧ ∀ e w', finishAnimation w = Raised e w' →
      pushes (board w) m = false
      ∧ move_history w' = move_history w
      ∧ current_move_index w' = current_move_index w.
Proof.
  intros Hm Hlt. unfold pushes. split_and!.
  - intros w' Hfin.
    destruct (finishAnimation_returned w w' Hfin) as (m' & Hm' & Hb).
    rewrite Hm in Hm'. injection Hm' as <-.
    destruct (finishAnimation_commit w m _ Hm Hb)
      as (w'' & Hfin' & _ & Hh & Hc & _).
    rewrite Hfin in Hfin'. injection Hfin' as <-.
    split_and!; [done..|]. intros Hc0.
    rewrite Hc, Hh, slice_to_nonneg by done. split; [done|].
    rewrite length_app, length_take. simpl. lia.
  - destruct (push (board w) m) as [b|b] eqn:Hb; [|done]. intros _.
    destruct (finishAnimation_commit w m b Hm Hb) as (w' & Hfin & _).
    by exists w'.
  - intros e w' Hfin.
    destruct (push (board w) m) as [b|b] eqn:Hb.
    + destruct (finishAnimation_commit w m b Hm Hb) as (w'' & Hfin' & _).
      congruence.
    + split; [done|]. rewrite (finishAnimation_raised w e w' Hfin).
      by destruct w.
Qed.

(** A press inside the widget lands on a square of the board. *)
Lemma clicked_square_on_board w x y :
  deliverable w (MousePress x y) = true →
  0 ≤ chess_square (x / square_size) (7 - y / square_size) < 64.
Proof.
  simpl. unfold inside_widget, board_size, square_size, chess_square.
  intros Hd.
  apply andb_true_iff in Hd as [Hd Hy2%Z.ltb_lt].
  apply andb_true_iff in Hd as [Hd Hy1%Z.leb_le].
  apply andb_true_iff in Hd as [Hx1%Z.leb_le Hx2%Z.ltb_lt].
  assert (0 ≤ x / 60 < 8) by (split; [apply Z.div_pos | apply Z.div_lt_upper_bound]; lia).
  assert (0 ≤ y / 60 < 8) by (split; [apply Z.div_pos | apply Z.div_lt_upper_bound]; lia).
  lia.
Qed.

(** [keyPressEvent] never touches the selection: after an arrow key,
    whether the cursor moved or not, and whether the handler returned or
    not, the selected square is the one selected before. *)
Lemma keyPressEvent_keeps_selection key w :
  selected_square (state_of (keyPressEvent key w)) = selected_square w.
Proof. by destruct (keyPressEvent_frame key w) as (-> & _). Qed.

(** Navigation leaves the king bounce as it is, too. *)
Lemma keyPressEvent_keeps_king_bounce key w :
  kingBounceAnim (state_of (keyPressEvent key w)) = kingBounceAnim w
  ∧ _king_bounce_scale (state_of (keyPressEvent key w))
    = _king_bounce_scale w.
Proof.
  by destruct (keyPressEvent_frame key w) as (_ & _ & _ & _ & _ & _ & -> & ->).
Qed.

(** An invariant that every handler keeps, returning or not. *)
Lemma run_invariant_state (P : Widget → Prop) :
  (∀ w ev, P w → deliverable w ev = true → P (state_of (handle ev w))) →
  ∀ evs w w', P w → run w evs = Some w' → P w'.
Proof.
  intros Hstep. apply run_invariant. intros w ev w' Hw Hd Hev.
  specialize (Hstep w ev Hw Hd). by rewrite Hev in Hstep.
Qed.

(** ** One move in flight *)

Lemma paintEvent_in_flight w :
  pending_move (paintEvent w) = pending_move w
  ∧ animating (paintEvent w) = animating w
  ∧ anim (paintEvent w) = anim w
  ∧ selected_square (paintEvent w) = selected_square w.
Proof. by destruct (paintEvent_frame w) as (_ & -> & _ & _ & -> & -> & -> & _). Qed.

(** The finished signal with a move pending: the commit, or the raise
    that leaves the move pending. *)
Lemma finishAnimation_in_flight w m :
  pending_move w = Some m →
  (∃ w', finishAnimation w = Returned w'
         ∧ pending_move w' = None ∧ animating w' = false
         ∧ anim w' = anim w ∧ selected_square w' = selected_square w)
  ∨ (∃ b, push (board w) m = PushRaised b
          ∧ finishAnimation w = Raised AssertionError (set_board b w)).
Proof.
  intros Hm. destruct (push (board w) m) as [b|b] eqn:Hb.
  - left.
    destruct (finishAnimation_commit w m b Hm Hb)
      as (w' & Hfin & _ & _ & _ & ? & ? & ? & ? & _).
    by exists w'.
  - right. exists b. split; [done|]. by apply (finishAnimation_raises w m b).
Qed.

Lemma mousePressEvent_in_flight x y w :
  in_flight_inv w → in_flight_inv (state_of (mousePressEvent x y w)).
Proof.
  intros [Hp Ha]. unfold in_flight_inv, mousePressEvent.
  destruct (animating w) eqn:Han; simpl; [by rewrite Han|].
  repeat case_match; simpl; by rewrite ?Han.
Qed.

Lemma keyPressEvent_in_flight key w :
  in_flight_inv w → in_flight_inv (state_of (keyPressEvent key w)).
Proof.
  intros [Hp Ha]. unfold in_flight_inv.
  by destruct (keyPressEvent_frame key w) as (_ & _ & -> & -> & -> & _).
Qed.

(** Every handler that returns leaves the animation flags in step. *)
Lemma handle_in_flight ev w w' :
  in_flight_inv w → deliverable w ev = true → handle ev w = Returned w' →
  in_flight_inv w'.
Proof.
  intros Hw Hd. destruct ev; simpl in *.
  - intros Hev. pose proof (mousePressEvent_in_flight x y w Hw) as H.
    by rewrite Hev in H.
  - intros Hev. pose proof (keyPressEvent_in_flight key w Hw) as H.
    by rewrite Hev in H.
  - intros [= <-]. destruct Hw as [Hp Ha]. unfold in_flight_inv.
    destruct (paintEvent_in_flight w) as (Hp' & Ha' & Hanim & _).
    by rewrite Hp', Ha', Hanim.
  - by intros [= <-].
  - destruct Hw as [Hp Ha]. rewrite Hd in Ha. symmetry in Ha.
    apply Hp in Ha. destruct (pending_move w) as [m|] eqn:Hm; [|done].
    intros Hfin.
    destruct (finishAnimation_in_flight (set_anim (stop <$> anim w) w) m)
      as [(w'' & Hfin' & Hp' & Ha' & Hanim & _) | (b & _ & Hfin')]; [done| |].
    + rewrite Hfin in Hfin'. injection Hfin' as <-.
      unfold in_flight_inv. rewrite Hp', Ha', Hanim. simpl. split.
      * split; [done | discriminate].
      * by destruct (anim w).
    + by rewrite Hfin in Hfin'.
  - by intros [= <-].
  - by intros [= <-].
  - by intros [= <-].
Qed.

Lemma reachable_in_flight loadable w :
  reachable loadable w → in_flight_inv w.
Proof.
  intros [evs Hrun]. revert Hrun. apply run_invariant.
  - intros ????. by apply handle_in_flight.
  - split; simpl; [split; [done | discriminate] | done].
Qed.

(** Whatever a handler does, returning or not, a move is pending after it
    exactly when [animating] is set. *)
Lemma handle_pending_iff ev w :
  in_flight_inv w → deliverable w ev = true →
  pending_move (state_of (handle ev w)) ≠ None
  ↔ animating (state_of (handle ev w)) = true.
Proof.
  intros Hw Hd. destruct ev; simpl in *; try apply Hw.
  - by apply mousePressEvent_in_flight.
  - by apply keyPressEvent_in_flight.
  - destruct (paintEvent_in_flight w) as (-> & -> & _). apply Hw.
  - destruct Hw as [Hp Ha]. rewrite Hd in Ha. symmetry in Ha.
    pose proof Ha as Han. apply Hp in Ha.
    destruct (pending_move w) as [m|] eqn:Hm; [|done].
    destruct (finishAnimation_in_flight (set_anim (stop <$> anim w) w) m)
      as [(w'' & -> & Hp' & Ha' & _) | (b & _ & ->)]; [done| |]; simpl.
    + rewrite Hp', Ha'. split; [done | discriminate].
    + by rewrite Hm, Han.
Qed.

(** A pending move is kept or cleared by an event, never replaced. *)
Lemma handle_pending ev w m :
  in_flight_inv w → pending_move w = Some m →
  pending_move (state_of (handle ev w)) = Some m
  ∨ pending_move (state_of (handle ev w)) = None.
Proof.
  intros [Hp _] Hm.
  assert (animating w = true) as Han by (apply Hp; congruence).
  destruct ev; simpl; auto.
  - unfold mousePressEvent. rewrite Han. auto.
  - left. rewrite <- Hm.
    by destruct (keyPressEvent_frame key w) as (_ & _ & -> & _).
  - left. by destruct (paintEvent_in_flight w) as (-> & _).
  - destruct (finishAnimation_in_flight (set_anim (stop <$> anim w) w) m)
      as [(w' & -> & Hp' & _) | (b & _ & ->)]; [done| |]; simpl; auto.
Qed.

(** C8: in every reachable state a move is pending exactly when
    [animating] is set, which is exactly when the move animation runs;
    every event that can be delivered leads to a state where this holds
    again; and an event never replaces a pending move by another one, so
    at most one move is in flight. *)
Theorem pending_iff_animating loadable w :
  reachable loadable w →
  (pending_move w ≠ None ↔ animating w = true)
  ∧ running (anim w) = animating w
  ∧ ∀ ev, deliverable w ev = true →
      (pending_move (state_of (handle ev w)) ≠ None
       ↔ animating (state_of (handle ev w)) = true)
      ∧ ∀ m, pending_move w = Some m →
             pending_move (state_of (handle ev w)) = Some m
             ∨ pending_move (state_of (handle ev w)) = None.
Proof.
  intros Hreach. pose proof (reachable_in_flight _ _ Hreach) as Hinv.
  pose proof Hinv as [Hp Ha]. split_and!; [done..|].
  intros ev Hd. split.
  - by apply handle_pending_iff.
  - intros m. by apply handle_pending.
Qed.

(** X15: no square is selected while a move is animated. *)
Theorem reachable_animating_unselected loadable w :
  reachable loadable w → animating w = true → selected_square w = None.
Proof.
  intros [evs Hrun].
  revert Hrun.
  apply (run_invariant_state
           (λ w, animating w = true → selected_square w = None));
    [|done].
  clear. intros w ev Hw _. destruct ev; simpl; auto.
  - unfold mousePressEvent. destruct (animating w) eqn:Han; [auto|].
    repeat case_match; simpl; rewrite ?Han; done.
  - by destruct (keyPressEvent_frame key w) as (-> & _ & _ & -> & _).
  - by destruct (paintEvent_in_flight w) as (_ & -> & _ & ->).
  - destruct (pending_move w) as [m|] eqn:Hm.
    + destruct (finishAnimation_in_flight
                  (set_anim (stop <$> anim w) w) m)
        as [(w' & -> & _ & Han & _) | (b & _ & ->)]; [done| |]; simpl.
      * by rewrite Han.
      * done.
    + rewrite finishAnimation_none by done. simpl. auto.
Qed.

(** ** The second click *)

(** When the selected square holds a piece, the second click starts the
    animation of the attempted move exactly when the move is legal, and in
    both cases clears the selection. *)
Lemma mousePressEvent_attempt x y w selected piece :
  animating w = false →
  selected_square w = Some selected →
  piece_at (board w) selected = Some piece →
  let square := chess_square (x / square_size) (7 - y / square_size) in
  let move := attempted_move piece selected square in
  mousePressEvent x y w
  = Returned (set_selected_square None
                (if bool_decide (move ∈ legal_moves (board w))
                 then startAnimation move w else w)).
Proof. intros Han Hsel Hp. unfold mousePressEvent. by rewrite Han, Hsel, Hp. Qed.

(** The click raises exactly when the selected square is empty on the
    board shown. *)
Lemma mousePressEvent_raises x y w :
  raised (mousePressEvent x y w) = true
  ↔ animating w = false
    ∧ ∃ selected, selected_square w = Some selected
                  ∧ piece_at (board w) selected = None.
Proof.
  unfold mousePressEvent. repeat case_match; simpl; split;
    try done; try (intros (? & ? & ? & ?); congruence); eauto.
Qed.

Lemma mousePressEvent_stale x y w selected :
  animating w = false →
  selected_square w = Some selected →
  piece_at (board w) selected = None →
  mousePressEvent x y w = Raised AttributeError w.
Proof. intros Han Hsel Hp. unfold mousePressEvent. by rewrite Han, Hsel, Hp. Qed.

(** A click never moves the selection from one square to another. *)
Lemma mousePressEvent_no_transfer x y w selected :
  selected_square w = Some selected →
  selected_square (state_of (mousePressEvent x y w)) = Some selected
  ∨ selected_square (state_of (mousePressEvent x y w)) = None.
Proof.
  intros Hsel. unfold mousePressEvent. rewrite Hsel.
  repeat case_match; simpl; auto.
Qed.

(** X13: the two raises.  In a state of the running widget, of the events
    of the model (presses inside the widget, keys, paints, animation
    signals) a handler raises in two cases only: a press while the
    selected square is empty on the board shown raises [AttributeError] at
    [piece_at(selected_square).piece_type] and changes nothing, and the
    finished signal whose [board.push] raises gives [AssertionError] with
    only the board changed (and the animation stopped).  Keys and paints
    never raise. *)
Theorem reachable_raises loadable w ev :
  reachable loadable w → deliverable w ev = true →
  raised (handle ev w) = true →
  (∃ x y selected, ev = MousePress x y
                   ∧ inside_widget x y = true
                   ∧ animating w = false
                   ∧ selected_square w = Some selected
                   ∧ piece_at (board w) selected = None
                   ∧ handle ev w = Raised AttributeError w)
  ∨ (∃ m b, ev = AnimFinished
            ∧ pending_move w = Some m
            ∧ push (board w) m = PushRaised b
            ∧ handle ev w
              = Raised AssertionError
                  (set_board b (set_anim (stop <$> anim w) w))).
Proof.
  intros Hreach Hd Hraised.
  destruct (reachable_in_flight _ _ Hreach) as [Hp Ha].
  destruct ev; simpl in *; try done.
  - left. apply mousePressEvent_raises in Hraised as (? & s & ? & ?).
    exists x, y, s. split_and!; try done. by apply mousePressEvent_stale with s.
  - destruct (keyPressEvent_returns key w) as (w' & Hkey & _);
      [by eapply reachable_replay_inv|].
    by rewrite Hkey in Hraised.
  - right. rewrite Hd in Ha. symmetry in Ha. apply Hp in Ha.
    destruct (pending_move w) as [m|] eqn:Hm; [|done].
    destruct (finishAnimation_in_flight (set_anim (stop <$> anim w) w) m)
      as [(w' & Hfin & _) | (b & Hb & Hfin)]; [done| |].
    + by rewrite Hfin in Hraised.
    + by exists m, b.
Qed.

(** ** Capture highlights *)

Lemma square_rank_down sq :
  square_rank (sq - 8) = square_rank sq - 1
  ∧ square_file (sq - 8) = square_file sq.
Proof.
  unfold square_rank, square_file. rewrite !Z.shiftr_div_pow2 by lia.
  change 7 with (Z.ones 3). rewrite !Z.land_ones by lia.
  change (2 ^ 3) with 8. split.
  - replace (sq - 8) with (sq + (-1) * 8) by lia.
    rewrite Z.div_add by lia. lia.
  - replace (sq - 8) with (sq + (-1) * 8) by lia. by rewrite Z.mod_add by lia.
Qed.

Lemma square_rank_up sq :
  square_rank (sq + 8) = square_rank sq + 1
  ∧ square_file (sq + 8) = square_file sq.
Proof.
  unfold square_rank, square_file. rewrite !Z.shiftr_div_pow2 by lia.
  change 7 with (Z.ones 3). rewrite !Z.land_ones by lia.
  change (2 ^ 3) with 8. split.
  - replace (sq + 8) with (sq + 1 * 8) by lia.
    rewrite Z.div_add by lia. lia.
  - replace (sq + 8) with (sq + 1 * 8) by lia. by rewrite Z.mod_add by lia.
Qed.

Lemma killable_fold (b : Board) selected (l : list Move) (acc : gset Z) sq :
  sq ∈ foldl (λ killable move,
                if bool_decide (from_square move = selected)
                   && is_capture b move
                then {[captured_sq b move]} ∪ killable
                else killable) acc l
  ↔ sq ∈ acc
    ∨ ∃ move, move ∈ l ∧ from_square move = selected
              ∧ is_capture b move = true ∧ sq = captured_sq b move.
Proof.
  revert acc. induction l as [|a l IH]; intros acc; simpl.
  - split; [auto|]. intros [?|(? & Hin & _)]; [done|]. by apply elem_of_nil in Hin.
  - rewrite IH. clear IH.
    destruct (bool_decide (from_square a = selected) && is_capture b a)
      eqn:Ha.
    + apply andb_true_iff in Ha as [Hf%bool_decide_eq_true Hc].
      rewrite elem_of_union, elem_of_singleton. split.
      * intros [[->|?]|(move & ? & ?)]; [right; exists a|by left|right; exists move].
        -- split_and!; [by left|done..].
        -- split; [by right|done].
      * intros [?|(move & [->|?]%elem_of_cons & ? & ? & ->)]; eauto 10.
    + split.
      * intros [?|(move & ? & ?)]; [by left|right; exists move].
        split; [by right|done].
      * intros [?|(move & [->|?]%elem_of_cons & Hf & Hc & ->)]; eauto 10.
        rewrite Hc, andb_true_r in Ha. by apply bool_decide_eq_false in Ha.
Qed.

(** C7: with a square selected and no animation, the set of killable
    squares is the set of [captured_sq] of the legal captures from the
    selected square.  For an en-passant capture that square is 8 below the
    destination when the capturing piece is White (same file, one rank
    lower) and 8 above when it is Black (same file, one rank higher), and
    it is not the destination; for any other capture it is the
    destination. *)
Theorem killable_squares_spec w selected :
  selected_square w = Some selected →
  animating w = false →
  ∃ killable,
    killable_squares w = Some killable
    ∧ (∀ sq, sq ∈ killable
             ↔ ∃ move, move ∈ legal_moves (board w)
                       ∧ from_square move = selected
                       ∧ is_capture (board w) move = true
                       ∧ sq = captured_sq (board w) move)
    ∧ ∀ move, move ∈ legal_moves (board w) →
        from_square move = selected →
        is_capture (board w) move = true →
        captured_sq (board w) move ∈ killable
        ∧ (is_en_passant (board w) move = true →
           captured_sq (board w) move ≠ to_square move
           ∧ ∀ piece, piece_at (board w) selected = Some piece →
               (color piece = WHITE →
                captured_sq (board w) move = to_square move - 8
                ∧ square_rank (captured_sq (board w) move)
                  = square_rank (to_square move) - 1
                ∧ square_file (captured_sq (board w) move)
                  = square_file (to_square move))
               ∧ (color piece = BLACK →
                  captured_sq (board w) move = to_square move + 8
                  ∧ square_rank (captured_sq (board w) move)
                    = square_rank (to_square move) + 1
                  ∧ square_file (captured_sq (board w) move)
                    = square_file (to_square move)))
        ∧ (is_en_passant (board w) move = false →
           captured_sq (board w) move = to_square move).
Proof.
  intros Hsel Han. unfold killable_squares. rewrite Hsel, Han.
  eexists. split; [done|]. split.
  - intros sq. rewrite killable_fold. split; [|by right].
    intros [Hempty|?]; [|done]. by apply not_elem_of_empty in Hempty.
  - intros move Hin Hfrom Hcap. split_and!.
    + apply killable_fold. right. by exists move.
    + intros Hep. unfold captured_sq. rewrite Hep, Hfrom. split.
      * repeat case_match; lia.
      * intros piece ->. split; intros Hc; rewrite Hc; simpl.
        -- split; [done|]. apply square_rank_down.
        -- split; [done|]. apply square_rank_up.
    + intros Hep. unfold captured_sq. by rewrite Hep.
Qed.

(** ** The king bounce *)

(** Starting the bounce while one exists changes nothing. *)
Lemma startKingBounce_running w :
  kingBounceAnim w ≠ None → startKingBounce w = w.
Proof. unfold startKingBounce. by destruct (kingBounceAnim w). Qed.

(** A commit that leaves the side to move out of check leaves no bounce,
    and resets the scale if there was one. *)
Lemma finishAnimation_stops_bounce w w' :
  finishAnimation w = Returned w' →
  (is_check (board w') = false →
   kingBounceAnim w' = None
   ∧ (kingBounceAnim w ≠ None → _king_bounce_scale w' = 1%Q)
   ∧ (kingBounceAnim w = None
      → _king_bounce_scale w' = _king_bounce_scale w))
  ∧ (is_check (board w') = true →
     kingBounceAnim w' = kingBounceAnim w
     ∧ _king_bounce_scale w' = _king_bounce_scale w).
Proof.
  intros Hfin.
  destruct (finishAnimation_returned w w' Hfin) as (m & Hm & Hb).
  revert Hfin Hb. generalize (board w') as b'. intros b' Hfin Hb.
  assert (board w' = b') as Hb'.
  { destruct (finishAnimation_commit w m b' Hm Hb) as (w'' & Hfin' & ? & _).
    congruence. }
  revert Hfin. unfold finishAnimation. rewrite Hm, Hb. intros [= <-].
  destruct w as [b sel pix h c an prog pend sp ep a bs ba ks ka mb].
  simpl in *. clear Hm Hb Hb'.
  unfold checkGameStatus, stopKingBounce.
  destruct (c <? Z.of_nat (length h)); simpl;
    destruct (is_check b') eqn:Hc; simpl;
    destruct ka; simpl; repeat case_match; simpl; rewrite ?Hc;
    (split; [intros ?; split_and!|]); done.
Qed.

(** Painting with a bounce in place changes nothing: there is never a
    second instance. *)
Lemma paintEvent_running w : kingBounceAnim w ≠ None → paintEvent w = w.
Proof.
  intros Hk. destruct (paintEvent_cases w) as [-> | ->]; [done|].
  by apply startKingBounce_running.
Qed.

Lemma finishAnimation_king_bounce w :
  king_bounce_inv w → king_bounce_inv (state_of (finishAnimation w)).
Proof.
  intros [Hnone Hsome]. unfold king_bounce_inv.
  destruct (finishAnimation w) as [w'|e w'] eqn:Hfin; simpl.
  - destruct (finishAnimation_stops_bounce w w' Hfin) as [Hout Hin].
    destruct (is_check (board w')).
    + destruct Hin as [-> ->]; done.
    + destruct Hout as (Hk & Hs & Hn); [done|]. rewrite Hk. split; [|done].
      intros _. destruct (kingBounceAnim w) eqn:Hka; [by apply Hs|].
      rewrite Hn by done. by apply Hnone.
  - rewrite (finishAnimation_raised w e w' Hfin). done.
Qed.

Lemma handle_king_bounce ev w :
  king_bounce_inv w → deliverable w ev = true →
  king_bounce_inv (state_of (handle ev w)).
Proof.
  intros [Hnone Hsome] Hd. unfold king_bounce_inv.
  destruct ev; simpl in *; try done.
  - unfold mousePressEvent. repeat case_match; done.
  - by destruct (keyPressEvent_keeps_king_bounce key w) as [-> ->].
  - destruct (paintEvent_cases w) as [-> | ->]; [done|].
    unfold startKingBounce. destruct (kingBounceAnim w) eqn:Hk; simpl.
    + by rewrite Hk.
    + done.
  - by apply (finishAnimation_king_bounce (set_anim (stop <$> anim w) w)).
  - destruct (kingBounceAnim w); [|done]. split; [done|]. by intros _.
Qed.

(** X14: in every reachable state the king bounce scale is 1 whenever
    there is no king bounce, and a king bounce that exists is running. *)
Theorem reachable_king_bounce loadable w :
  reachable loadable w → king_bounce_inv w.
Proof.
  intros [evs Hrun]. revert Hrun. apply run_invariant_state.
  - intros ???. by apply handle_king_bounce.
  - done.
Qed.

End Verification.

(** * More of the widget *)

Section Coverage.
Context {E : RulesEngine}.
Implicit Types (w : Widget) (ev : Event) (m : Move).

(** ** Piece images *)


Lemma load_fold (loadable : string → bool) (l : list (string * string))
    (acc : gmap string string) (key : string) :
  NoDup l.*1 →
  (key ∉ l.*1 →
   foldl (λ pixmaps kf,
            if loadable kf.2 then <[kf.1 := kf.2]> pixmaps else pixmaps)
         acc l !! key = acc !! key)
  ∧ (∀ file, (key, file) ∈ l →
     foldl (λ pixmaps kf,
              if loadable kf.2 then <[kf.1 := kf.2]> pixmaps else pixmaps)
           acc l !! key
     = if loadable file then Some file else acc !! key).
Proof.
  revert acc. induction l as [|[k v] l IH]; intros acc Hnd; simpl.
  - split; [done|]. intros file Hin. by apply elem_of_nil in Hin.
  - apply NoDup_cons in Hnd as [Hk Hnd].
    destruct (IH (if loadable v then <[k:=v]> acc else acc) Hnd)
      as [IHout IHin].
    split.
    + intros Hkey. apply not_elem_of_cons in Hkey as [Hne Hkey].
      rewrite IHout by done. destruct (loadable v); [|done].
      by rewrite lookup_insert_ne.
    + intros file [Heq|Hin]%elem_of_cons.
      * injection Heq as -> ->. rewrite IHout by done.
        destruct (loadable v); [|done]. by rewrite lookup_insert_eq.
      * assert (key ≠ k) as Hne.
        { intros ->. apply Hk. apply list_elem_of_fmap. by exists (k, file). }
        rewrite (IHin file Hin). destruct (loadable file); [done|].
        destruct (loadable v); [|done]. by rewrite lookup_insert_ne.
Qed.

Lemma piece_images_keys : NoDup piece_images.*1.
Proof. apply (bool_decide_unpack _). vm_compute. exact I. Qed.

Lemma symbol_image (p : Piece) : ∃ file, (symbol p, file) ∈ piece_images.
Proof.
  destruct p as [[] []]; eexists; unfold piece_images;
    repeat first [apply list_elem_of_here | apply list_elem_of_further].
Qed.

(** X1: the pixmaps [__init__] loads.  Every piece has an entry in
    [piece_images]; its symbol gets a pixmap exactly when that file
    loads, and then the pixmap of that file; and nothing but the symbols
    of pieces is a key of [piece_pixmaps]. *)
Theorem piece_pixmaps_lookup (loadable : string → bool) :
  (∀ p : Piece, ∃ file,
      (symbol p, file) ∈ piece_images
      ∧ piece_pixmaps (init loadable) !! symbol p
        = if loadable file then Some file else None)
  ∧ (∀ key, is_Some (piece_pixmaps (init loadable) !! key) →
            ∃ p : Piece, key = symbol p).
Proof.
  split.
  - intros p. destruct (symbol_image p) as [file Hin]. exists file.
    split; [done|]. simpl. unfold loadPieceImages.
    destruct (load_fold loadable piece_images ∅ (symbol p) piece_images_keys)
      as [_ Hin'].
    by rewrite (Hin' file Hin), lookup_empty.
  - intros key Hsome. simpl in Hsome. unfold loadPieceImages in Hsome.
    destruct (decide (key ∈ piece_images.*1)) as [Hkey|Hkey].
    + clear Hsome. unfold piece_images in Hkey. simpl in Hkey.
      repeat (apply elem_of_cons in Hkey as [->|Hkey];
              [first [ by exists (mkPiece PAWN WHITE)
                     | by exists (mkPiece ROOK WHITE)
                     | by exists (mkPiece KNIGHT WHITE)
                     | by exists (mkPiece BISHOP WHITE)
                     | by exists (mkPiece QUEEN WHITE)
                     | by exists (mkPiece KING WHITE)
                     | by exists (mkPiece PAWN BLACK)
                     | by exists (mkPiece ROOK BLACK)
                     | by exists (mkPiece KNIGHT BLACK)
                     | by exists (mkPiece BISHOP BLACK)
                     | by exists (mkPiece QUEEN BLACK)
                     | by exists (mkPiece KING BLACK) ]|]).
      by apply elem_of_nil in Hkey.
    + destruct (load_fold loadable piece_images ∅ key piece_images_keys)
        as [Hout _].
      rewrite (Hout Hkey), lookup_empty in Hsome. by destruct Hsome.
Qed.



(** ** Painting *)

Lemma paint_piece_draws w square :
  paint_piece w square
  = if draws_checked_king w square then startKingBounce w else w.
Proof.
  unfold paint_piece, draws_checked_king, startKingBounce.
  destruct (piece_at (board w) square) as [piece|]; [|done].
  destruct (match pending_move w with Some _ => _ | None => _ end); [done|].
  destruct (piece_pixmaps w !! symbol piece) as [pixmap|] eqn:Hpix; simpl.
  - destruct (bool_decide (piece_type piece = KING)
              && bool_decide (color piece = turn (board w))
              && is_check (board w)); [|done].
    by destruct (kingBounceAnim w).
  - done.
Qed.

Lemma draws_checked_king_started w square :
  draws_checked_king (startKingBounce w) square = draws_checked_king w square.
Proof. unfold startKingBounce. by destruct (kingBounceAnim w). Qed.

Lemma paint_fold w (l : list Z) :
  foldl paint_piece w l
  = if existsb (draws_checked_king w) l then startKingBounce w else w.
Proof.
  revert w. induction l as [|square l IH]; intros w; simpl; [done|].
  rewrite paint_piece_draws.
  destruct (draws_checked_king w square); simpl; [|apply IH].
  rewrite IH, startKingBounce_idem.
  by destruct (existsb _ l).
Qed.

(** X2: what a paint does to the widget.  It starts the king bounce when
    some square holds a piece it draws as the king in check, and changes
    nothing otherwise; so out of check, or with a bounce in place, it
    changes nothing, and painting twice is painting once. *)
Theorem paintEvent_effect w :
  paintEvent w
  = (if existsb (draws_checked_king w) SQUARES then startKingBounce w else w)
  ∧ (is_check (board w) = false → paintEvent w = w)
  ∧ (kingBounceAnim w ≠ None → paintEvent w = w)
  ∧ paintEvent (paintEvent w) = paintEvent w.
Proof.
  assert (paintEvent w
          = if existsb (draws_checked_king w) SQUARES
            then startKingBounce w else w) as Hpaint by apply paint_fold.
  split_and!; [done| | |].
  - intros Hcheck. rewrite Hpaint.
    destruct (existsb _ SQUARES) eqn:Hex; [|done].
    apply existsb_exists in Hex as (square & _ & Hdraw).
    unfold draws_checked_king in Hdraw. rewrite Hcheck in Hdraw.
    destruct (piece_at (board w) square); [|done].
    by rewrite andb_false_r in Hdraw.
  - intros Hk. rewrite Hpaint. rewrite startKingBounce_running by done.
    by destruct (existsb _ SQUARES).
  - destruct (paintEvent_cases w) as [Hc|Hc]; rewrite Hc; [exact Hc|].
    apply paintEvent_running. unfold startKingBounce.
    by destruct (kingBounceAnim w) eqn:Hk; simpl; rewrite ?Hk.
Qed.

(** ** Squares and pixels *)

Lemma square_parts sq :
  0 ≤ sq < 64 →
  0 ≤ square_file sq < 8 ∧ 0 ≤ square_rank sq < 8
  ∧ sq = chess_square (square_file sq) (square_rank sq).
Proof.
  intros Hsq. unfold square_file, square_rank, chess_square.
  rewrite Z.shiftr_div_pow2 by lia. change 7 with (Z.ones 3).
  rewrite Z.land_ones by lia. change (2 ^ 3) with 8.
  pose proof (Z.div_mod sq 8 ltac:(lia)) as Hdm.
  pose proof (Z.mod_pos_bound sq 8 ltac:(lia)) as Hm.
  assert (0 ≤ sq / 8 < 8)
    by (split; [apply Z.div_pos | apply Z.div_lt_upper_bound]; lia).
  lia.
Qed.

Lemma square_of_parts f r :
  0 ≤ f < 8 →
  square_file (chess_square f r) = f ∧ square_rank (chess_square f r) = r.
Proof.
  intros Hf. unfold square_file, square_rank, chess_square.
  rewrite Z.shiftr_div_pow2 by lia. change 7 with (Z.ones 3).
  rewrite Z.land_ones by lia. change (2 ^ 3) with 8.
  rewrite Z.add_comm, Z.mod_add, Z.div_add by lia.
  rewrite Z.mod_small, Z.div_small by lia. lia.
Qed.

Lemma div_offset a d : 0 ≤ d < 60 → (a * 60 + d) / 60 = a.
Proof.
  intros Hd. rewrite Z.add_comm, Z.div_add by lia.
  rewrite Z.div_small by lia. lia.
Qed.

(** X3: pixels and squares.  Every pixel of the rectangle drawn for a
    square of the board is inside the widget, and a press there is
    resolved to that square and handled as a press on its corner;
    conversely a press inside the widget lies in the rectangle of the
    square it is resolved to.  The animation of a move starts and ends
    at the corners of the rectangles of its two squares. *)
Theorem click_resolves_square w sq dx dy :
  0 ≤ sq < 64 → 0 ≤ dx < square_size → 0 ≤ dy < square_size →
  let x := (square_origin sq).1 + dx in
  let y := (square_origin sq).2 + dy in
  deliverable w (MousePress x y) = true
  ∧ clicked_square x y = sq
  ∧ mousePressEvent x y w
    = mousePressEvent (square_origin sq).1 (square_origin sq).2 w
  ∧ (∀ x' y', deliverable w (MousePress x' y') = true →
       0 ≤ clicked_square x' y' < 64
       ∧ (square_origin (clicked_square x' y')).1 ≤ x'
         < (square_origin (clicked_square x' y')).1 + square_size
       ∧ (square_origin (clicked_square x' y')).2 ≤ y'
         < (square_origin (clicked_square x' y')).2 + square_size)
  ∧ (∀ m, anim_start_point (startAnimation m w)
          = square_origin (from_square m)
          ∧ anim_end_point (startAnimation m w)
            = square_origin (to_square m)).
Proof.
  intros Hsq Hdx Hdy. unfold square_size in *.
  destruct (square_parts sq Hsq) as (Hf & Hr & Heq).
  assert (clicked_square ((square_origin sq).1 + dx)
            ((square_origin sq).2 + dy) = sq) as Hclick.
  { unfold clicked_square, square_origin, square_size. simpl.
    rewrite !div_offset by lia. rewrite Heq at 3. unfold chess_square. lia. }
  assert (clicked_square (square_origin sq).1 (square_origin sq).2 = sq)
    as Hcorner.
  { unfold clicked_square, square_origin, square_size. simpl.
    rewrite <- (Z.add_0_r (square_file sq * 60)).
    rewrite <- (Z.add_0_r ((7 - square_rank sq) * 60)).
    rewrite !div_offset by lia. rewrite Heq at 3. unfold chess_square. lia. }
  split_and!.
  - simpl. unfold inside_widget, board_size, square_size.
    repeat (apply andb_true_iff; split);
      first [apply Z.leb_le | apply Z.ltb_lt]; simpl; lia.
  - exact Hclick.
  - unfold mousePressEvent.
    change (chess_square (?x / square_size) (7 - ?y / square_size))
      with (clicked_square x y).
    by rewrite Hclick, Hcorner.
  - intros x' y' Hd. simpl in Hd.
    unfold inside_widget, board_size, square_size in Hd.
    apply andb_true_iff in Hd as [Hd Hy2%Z.ltb_lt].
    apply andb_true_iff in Hd as [Hd Hy1%Z.leb_le].
    apply andb_true_iff in Hd as [Hx1%Z.leb_le Hx2%Z.ltb_lt].
    assert (0 ≤ x' / 60 < 8)
      by (split; [apply Z.div_pos | apply Z.div_lt_upper_bound]; lia).
    assert (0 ≤ y' / 60 < 8)
      by (split; [apply Z.div_pos | apply Z.div_lt_upper_bound]; lia).
    assert (0 ≤ clicked_square x' y' < 64) as Hon
      by (unfold clicked_square, chess_square, square_size; lia).
    destruct (square_parts _ Hon) as (Hf' & Hr' & Heq').
    assert (square_file (clicked_square x' y') = x' / 60
            ∧ square_rank (clicked_square x' y') = 7 - y' / 60) as [Hfx Hry].
    { unfold clicked_square, square_size. by apply square_of_parts. }
    unfold square_origin, square_size. simpl. rewrite Hfx, Hry.
    pose proof (Z.div_mod x' 60 ltac:(lia)).
    pose proof (Z.mod_pos_bound x' 60 ltac:(lia)).
    pose proof (Z.div_mod y' 60 ltac:(lia)).
    pose proof (Z.mod_pos_bound y' 60 ltac:(lia)).
    lia.
  - intros m. by unfold startAnimation, square_origin.
Qed.


(** ** The handlers, by what they return *)

Lemma returned_state ev w w' :
  handle ev w = Returned w' → state_of (handle ev w) = w'.
Proof. by intros ->. Qed.

(** A commit, from its result. *)
Lemma finishAnimation_inv w w' :
  finishAnimation w = Returned w' →
  ∃ m, pending_move w = Some m
       ∧ push (board w) m = Pushed (board w')
       ∧ move_history w'
         = slice_to (move_history w) (current_move_index w) ++ [m]
       ∧ current_move_index w' = Z.of_nat (length (move_history w'))
       ∧ pending_move w' = None ∧ animating w' = false
       ∧ anim w' = anim w ∧ selected_square w' = selected_square w
       ∧ message_boxes w'
         = message_boxes w ++ option_list (game_over_message (board w')).
Proof.
  intros Hfin.
  destruct (finishAnimation_returned w w' Hfin) as (m & Hm & Hb).
  destruct (finishAnimation_commit w m _ Hm Hb) as (w'' & Hfin' & Hrest).
  rewrite Hfin in Hfin'. injection Hfin' as <-.
  exists m. destruct Hrest as (_ & ? & ? & ? & ? & ? & ? & ?).
  by split_and!.
Qed.

(** The finished signal, whatever it does, keeps the selection, and
    changes the history, the cursor and the pending move only when it
    returns. *)
Lemma finishAnimation_frame w :
  selected_square (state_of (finishAnimation w)) = selected_square w
  ∧ (raised (finishAnimation w) = true →
     move_history (state_of (finishAnimation w)) = move_history w
     ∧ current_move_index (state_of (finishAnimation w))
       = current_move_index w
     ∧ pending_move (state_of (finishAnimation w)) = pending_move w
     ∧ animating (state_of (finishAnimation w)) = animating w
     ∧ anim (state_of (finishAnimation w)) = anim w
     ∧ message_boxes (state_of (finishAnimation w)) = message_boxes w
     ∧ kingBounceAnim (state_of (finishAnimation w)) = kingBounceAnim w
     ∧ _king_bounce_scale (state_of (finishAnimation w))
       = _king_bounce_scale w).
Proof.
  destruct (finishAnimation w) as [w'|e w'] eqn:Hfin; simpl.
  - split; [|done].
    by destruct (finishAnimation_inv w w' Hfin)
      as (m & _ & _ & _ & _ & _ & _ & _ & -> & _).
  - rewrite (finishAnimation_raised w e w' Hfin). done.
Qed.

Lemma attempted_move_wf piece selected square :
  0 ≤ selected < 64 → 0 ≤ square < 64 →
  wf_move (attempted_move piece selected square).
Proof.
  intros Hs Hq. unfold attempted_move, wf_move.
  destruct (bool_decide (piece_type piece = PAWN)
            && ((square_rank square =? 0) || (square_rank square =? 7)))
    eqn:Hp; simpl; split_and!; try lia; [|by left].
  right. split; [done|].
  apply andb_true_iff in Hp as [_ Hr]. apply orb_true_iff in Hr. lia.
Qed.

(** ** Moves the widget builds *)

Lemma slice_to_sublist {A} (P : A → Prop) (l : list A) k :
  Forall P l → Forall P (slice_to l k).
Proof. intros Hl. unfold slice_to. case_match; by apply Forall_take. Qed.

Lemma handle_moves_wf ev w :
  moves_wf w → deliverable w ev = true → moves_wf (state_of (handle ev w)).
Proof.
  intros (Hsel & Hpend & Hhist) Hd. unfold moves_wf.
  destruct ev; simpl; try done.
  - pose proof (clicked_square_on_board w x y Hd) as Hon.
    fold (clicked_square x y) in Hon.
    rewrite mousePressEvent_cases.
    destruct (animating w); [done|].
    destruct (selected_square w) as [selected|] eqn:Hs.
    + destruct (piece_at (board w) selected) as [piece|]; simpl;
        [|by rewrite Hs].
      case_bool_decide; simpl; split_and!; try done.
      intros m [= <-]. apply attempted_move_wf; auto.
    + repeat case_match; simpl; rewrite ?Hs; try done.
      split_and!; try done. by intros s [= <-].
  - by destruct (keyPressEvent_frame key w) as (-> & -> & -> & _).
  - by destruct (paintEvent_frame w) as (_ & -> & -> & _ & -> & _).
  - destruct (finishAnimation (set_anim (stop <$> anim w) w))
      as [w'|e w'] eqn:Hfin; simpl.
    + destruct (finishAnimation_inv _ w' Hfin)
        as (m & Hm & _ & Hh & _ & Hp & _ & _ & Hs & _).
      simpl in Hm, Hh, Hs. rewrite Hh, Hp, Hs. split_and!; try done.
      apply Forall_app. split; [by apply slice_to_sublist|].
      apply Forall_singleton. by apply Hpend.
    + rewrite (finishAnimation_raised _ e w' Hfin). by simpl.
Qed.

(** X4: the moves the widget builds.  In every state that presses inside
    the widget, keys, paints and animation signals lead to, the selected
    square is a square of the board, and the pending move and every move
    of the history go from a square of the board to a square of the board
    and promote, if at all, to a queen on rank 1 or 8. *)
Theorem reachable_moves_wf loadable w :
  reachable loadable w →
  (∀ s, selected_square w = Some s → 0 ≤ s < 64)
  ∧ (∀ m, pending_move w = Some m → wf_move m)
  ∧ Forall wf_move (move_history w).
Proof.
  intros [evs Hrun]. revert Hrun. apply (run_invariant_state moves_wf).
  - intros ???. by apply handle_moves_wf.
  - by split_and!.
Qed.

(** ** A move in flight *)

(** X5: no event cancels a move in flight.  In a state of the running
    widget with a pending move, every event other than the animation's
    [finished] leaves the move pending and the animation running, and
    [finished] can be delivered.  When [board.push] returns for the move
    on the board shown, as it does for a move legal there, the handler
    returns with the pushed board, the move as the last of the history,
    the cursor at the end and nothing pending; when [board.push] raises,
    the handler raises [AssertionError] and the move stays pending. *)
Theorem animation_is_not_cancelled loadable w m :
  reachable loadable w → pending_move w = Some m →
  (∀ ev, deliverable w ev = true → ev ≠ AnimFinished →
     pending_move (state_of (handle ev w)) = Some m
     ∧ animating (state_of (handle ev w)) = true
     ∧ running (anim (state_of (handle ev w))) = true)
  ∧ deliverable w AnimFinished = true
  ∧ (∀ b, push (board w) m = Pushed b →
       ∃ w', handle AnimFinished w = Returned w'
             ∧ board w' = b
             ∧ last (move_history w') = Some m
             ∧ current_move_index w' = Z.of_nat (length (move_history w'))
             ∧ pending_move w' = None ∧ animating w' = false)
  ∧ (m ∈ legal_moves (board w) → ∃ b, push (board w) m = Pushed b)
  ∧ (∀ b, push (board w) m = PushRaised b →
       handle AnimFinished w
       = Raised AssertionError (set_board b (set_anim (stop <$> anim w) w))
       ∧ pending_move (state_of (handle AnimFinished w)) = Some m
       ∧ move_history (state_of (handle AnimFinished w)) = move_history w).
Proof.
  intros Hreach Hm. destruct (reachable_in_flight _ _ Hreach) as [Hp Hrun].
  assert (animating w = true) as Han by (apply Hp; congruence).
  rewrite Han in Hrun. split_and!.
  - intros ev Hd Hne. destruct ev; simpl; try done.
    + unfold mousePressEvent. by rewrite Han.
    + by destruct (keyPressEvent_frame key w) as (_ & _ & -> & -> & -> & _).
    + by destruct (paintEvent_frame w)
        as (_ & _ & _ & _ & -> & -> & -> & _).
  - exact Hrun.
  - intros b Hb.
    destruct (finishAnimation_commit (set_anim (stop <$> anim w) w) m b)
      as (w' & Hfin & ? & Hh & Hc & Hp' & Ha' & _); [done..|].
    exists w'. split_and!; try done. rewrite Hh. apply last_snoc.
  - apply push_legal.
  - intros b Hb. simpl.
    rewrite (finishAnimation_raises (set_anim (stop <$> anim w) w) m b)
      by done. done.
Qed.

(** ** Games played without navigating during an animation *)

Lemma legal_from_snoc (b b' : Board) (moves : list Move) m :
  legal_from b moves = true → push_all b moves = Pushed b' →
  m ∈ legal_moves b' → legal_from b (moves ++ [m]) = true.
Proof.
  revert b. induction moves as [|a moves IH]; intros b; simpl.
  - intros _ [= ->] Hm. rewrite bool_decide_eq_true_2 by done.
    by destruct (push_legal b' m Hm) as [b'' ->].
  - intros [Ha Hl]%andb_true_iff. rewrite Ha. simpl.
    destruct (push b a) as [b1|b1]; [|done]. by apply IH.
Qed.

Lemma legal_from_take (b : Board) (moves : list Move) n :
  legal_from b moves = true → legal_from b (take n moves) = true.
Proof.
  revert b n. induction moves as [|a moves IH]; intros b [|n]; simpl; try done.
  intros [Ha Hl]%andb_true_iff. rewrite Ha. simpl.
  destruct (push b a) as [b1|b1]; [|done]. by apply IH.
Qed.

(** A game of legal moves can be replayed. *)
Lemma legal_from_replays (b : Board) (moves : list Move) :
  legal_from b moves = true → ∃ b', push_all b moves = Pushed b'.
Proof.
  revert b. induction moves as [|a moves IH]; intros b; simpl; [eauto|].
  intros [_ Hl]%andb_true_iff.
  destruct (push b a) as [b1|b1]; [|done]. by apply IH.
Qed.

Lemma run_if_invariant (ok : Widget → Event → bool) (P : Widget → Prop) :
  (∀ w ev w', P w → ok w ev = true → deliverable w ev = true →
              handle ev w = Returned w' → P w') →
  ∀ evs w w', P w → run_if ok w evs = Some w' → P w'.
Proof.
  intros Hstep evs. induction evs as [|ev evs IH]; intros w w' Hw; simpl.
  - by intros [= <-].
  - destruct (ok w ev) eqn:Hok; [|done]. unfold dispatch.
    destruct (deliverable w ev) eqn:Hd; [|done].
    destruct (handle ev w) as [w1|e w1] eqn:Hev; [|done].
    apply IH. by eapply Hstep.
Qed.

(** A restricted run is a run. *)
Lemma run_if_run (ok : Widget → Event → bool) evs w w' :
  run_if ok w evs = Some w' → run w evs = Some w'.
Proof.
  revert w. induction evs as [|ev evs IH]; intros w; simpl; [done|].
  destruct (ok w ev); [|done].
  destruct (dispatch w ev) as [[w1|e w1]|]; [apply IH | done..].
Qed.

(** A run under a condition is a run under a weaker one. *)
Lemma run_if_weaken (ok ok' : Widget → Event → bool) evs w w' :
  (∀ w ev, ok w ev = true → ok' w ev = true) →
  run_if ok w evs = Some w' → run_if ok' w evs = Some w'.
Proof.
  intros Hle. revert w. induction evs as [|ev evs IH]; intros w; simpl;
    [done|].
  destruct (ok w ev) eqn:Hok; [|done]. rewrite (Hle w ev Hok).
  destruct (dispatch w ev) as [[w1|e w1]|]; [apply IH | done..].
Qed.

Lemma handle_legal_play ev w w' :
  legal_play w → no_key_in_flight w ev = true → deliverable w ev = true →
  handle ev w = Returned w' → legal_play w'.
Proof.
  intros (Hrep & Hp & Hrun & Hlegal & Hpend) Hok Hd Hev.
  assert (in_flight_inv w) as Hinv by done.
  pose proof (handle_in_flight ev w w' Hinv Hd Hev) as [Hp' Hrun'].
  pose proof (handle_replay_inv ev w w' Hrep Hev) as Hrep'.
  assert (animating w = false → pending_move w = None) as Hnone.
  { intros Han. destruct (pending_move w); [|done].
    assert (animating w = true) by (by apply Hp). congruence. }
  split_and!; [done..| |].
  - destruct ev; simpl in Hev.
    + pose proof (mousePressEvent_game x y w) as Hg. rewrite Hev in Hg.
      simpl in Hg.
      by destruct (game_fields _ _ Hg) as (_ & -> & _).
    + destruct (keyPressEvent_frame key w) as (_ & Hh & _).
      rewrite Hev in Hh. simpl in Hh. by rewrite Hh.
    + injection Hev as <-.
      by destruct (paintEvent_frame w) as (_ & _ & -> & _).
    + by injection Hev as <-.
    + destruct (finishAnimation_inv _ w' Hev) as (m & Hm & Hb & Hh & _).
      simpl in *. rewrite Hh.
      destruct Hrep as (Hpos & _ & Hc). unfold position_is_replay in Hpos.
      rewrite slice_to_nonneg in * by lia.
      apply legal_from_snoc with (board w); [|done|by apply Hpend].
      by apply legal_from_take.
    + by injection Hev as <-.
    + by injection Hev as <-.
    + by injection Hev as <-.
  - destruct ev; simpl in Hev.
    + rewrite mousePressEvent_cases in Hev.
      destruct (animating w) eqn:Han; [by injection Hev as <-|].
      specialize (Hnone eq_refl).
      destruct (selected_square w) as [selected|].
      * destruct (piece_at (board w) selected); [|done]. simpl in Hev.
        injection Hev as <-. case_bool_decide as Hl; simpl.
        -- by intros m [= <-].
        -- by rewrite Hnone.
      * repeat case_match; injection Hev as <-; simpl; by rewrite Hnone.
    + destruct (keyPressEvent_frame key w) as (_ & _ & Hpk & _).
      rewrite Hev in Hpk. simpl in Hpk. rewrite Hpk.
      destruct key; simpl in Hok.
      * apply negb_true_iff in Hok. by rewrite Hnone.
      * apply negb_true_iff in Hok. by rewrite Hnone.
      * simpl in Hev. by injection Hev as <-.
    + injection Hev as <-.
      by destruct (paintEvent_frame w) as (-> & _ & _ & _ & -> & _).
    + by injection Hev as <-.
    + destruct (finishAnimation_inv _ w' Hev)
        as (m & _ & _ & _ & _ & -> & _). done.
    + by injection Hev as <-.
    + by injection Hev as <-.
    + by injection Hev as <-.
Qed.

Lemma run_if_legal_play loadable evs w :
  run_if no_key_in_flight (init loadable) evs = Some w → legal_play w.
Proof.
  apply (run_if_invariant no_key_in_flight legal_play).
  - intros ????. by apply handle_legal_play.
  - split_and!; try done. split_and!; try done. by exists initial.
Qed.

(** X6: when no arrow key arrives while a move is animated, the history
    is a legal game: every move of it is legal on the board the moves
    before it lead to from the initial position, and a pending move is
    legal on the board shown. *)
Theorem history_is_legal_game loadable evs w :
  run_if no_key_in_flight (init loadable) evs = Some w →
  legal_from initial (move_history w) = true
  ∧ (∀ m, pending_move w = Some m → m ∈ legal_moves (board w))
  ∧ reachable loadable w.
Proof.
  intros Hrun.
  destruct (run_if_legal_play _ _ _ Hrun) as (_ & _ & _ & Hlegal & Hpend).
  split_and!; [done..|]. exists evs. by eapply run_if_run.
Qed.

(** ** Play without the arrow keys *)

Lemma handle_selection_holds ev w w' :
  replay_inv w ∧ selection_holds w →
  no_arrow_key w ev = true → deliverable w ev = true →
  handle ev w = Returned w' → replay_inv w' ∧ selection_holds w'.
Proof.
  intros (Hrep & Hp & Hrun & Hun & Hsel) Hok Hd Hev.
  assert (in_flight_inv w) as Hinv by done.
  pose proof (handle_in_flight ev w w' Hinv Hd Hev) as [Hp' Hrun'].
  split; [by eapply handle_replay_inv|].
  unfold selection_holds. split_and!; [done..| |].
  - destruct ev; simpl in Hev.
    + rewrite mousePressEvent_cases in Hev.
      destruct (animating w) eqn:Han; [injection Hev as <-; auto|].
      repeat case_match; try done; injection Hev as <-; simpl;
        rewrite ?Han; done.
    + destruct key; simpl in Hok, Hev; try done. by injection Hev as <-.
    + injection Hev as <-.
      by destruct (paintEvent_frame w) as (_ & -> & _ & _ & _ & -> & _).
    + by injection Hev as <-.
    + destruct (finishAnimation_inv _ w' Hev)
        as (m & _ & _ & _ & _ & _ & -> & _). done.
    + by injection Hev as <-.
    + by injection Hev as <-.
    + by injection Hev as <-.
  - destruct ev; simpl in Hev.
    + rewrite mousePressEvent_cases in Hev.
      destruct (animating w) eqn:Han; [by injection Hev as <-|].
      destruct (selected_square w) as [selected|] eqn:Hs.
      * destruct (piece_at (board w) selected); [|done].
        by injection Hev as <-.
      * destruct (piece_at (board w) (clicked_square x y)) as [piece|]
          eqn:Hpiece; [|injection Hev as <-; by rewrite Hs].
        case_bool_decide as Hcol; injection Hev as <-; simpl;
          [|by rewrite Hs].
        intros s [= <-]. by exists piece.
    + destruct key; simpl in Hok, Hev; try done. by injection Hev as <-.
    + injection Hev as <-.
      by destruct (paintEvent_frame w) as (-> & -> & _).
    + by injection Hev as <-.
    + simpl in Hd. rewrite Hd in Hrun. symmetry in Hrun.
      destruct (finishAnimation_inv _ w' Hev)
        as (m & _ & _ & _ & _ & _ & _ & _ & Hs & _).
      simpl in Hs. rewrite Hs, Hun; done.
    + by injection Hev as <-.
    + by injection Hev as <-.
    + by injection Hev as <-.
Qed.

(** X7: without the arrow keys nothing raises.  After any sequence of
    presses inside the widget, paints, animation signals and keys other
    than Left and Right, the selected square holds a piece of the side to
    move on the board shown, the pending move is legal there, and no
    event of these kinds, nor an arrow key, makes a handler raise. *)
Theorem no_arrow_key_no_raise loadable evs w :
  run_if no_arrow_key (init loadable) evs = Some w →
  (∀ s, selected_square w = Some s →
        ∃ piece, piece_at (board w) s = Some piece
                 ∧ color piece = turn (board w))
  ∧ (∀ m, pending_move w = Some m → m ∈ legal_moves (board w))
  ∧ ∀ ev, deliverable w ev = true → raised (handle ev w) = false.
Proof.
  intros Hrun.
  assert (legal_play w) as (Hrep & _ & _ & _ & Hpend).
  { apply (run_if_legal_play loadable evs).
    revert Hrun. apply run_if_weaken. by intros ? [| [] | | | | | |]. }
  assert (replay_inv w ∧ selection_holds w) as (_ & Hp & Hanim & _ & Hsel).
  { revert Hrun.
    apply (run_if_invariant no_arrow_key
             (λ w, replay_inv w ∧ selection_holds w)).
    - intros ????. by apply handle_selection_holds.
    - split; [|by split_and!]. split_and!; try done. by exists initial. }
  split_and!; [done..|]. intros ev Hd. destruct ev; simpl in *; try done.
  - rewrite mousePressEvent_cases.
    destruct (animating w); [done|].
    destruct (selected_square w) as [s|] eqn:Hs.
    + destruct (Hsel s eq_refl) as (piece & -> & _). done.
    + by repeat case_match.
  - by destruct (keyPressEvent_returns key w Hrep) as (w' & -> & _).
  - rewrite Hd in Hanim. symmetry in Hanim. apply Hp in Hanim.
    destruct (pending_move w) as [m|] eqn:Hm; [|done].
    destruct (push_legal (board w) m (Hpend m eq_refl)) as [b Hb].
    by destruct (finishAnimation_commit (set_anim (stop <$> anim w) w) m b)
      as (w' & -> & _).
Qed.

(** ** Navigation *)

Lemma keyPressEvent_left w :
  0 < current_move_index w →
  keyPressEvent Key_Left w
  = resetBoardToIndex (set_current_move_index (current_move_index w - 1) w).
Proof.
  intros Hc. unfold keyPressEvent.
  by rewrite (proj2 (Z.ltb_lt _ _) Hc).
Qed.

Lemma keyPressEvent_right w :
  current_move_index w < Z.of_nat (length (move_history w)) →
  keyPressEvent Key_Right w
  = resetBoardToIndex (set_current_move_index (current_move_index w + 1) w).
Proof.
  intros Hc. unfold keyPressEvent.
  by rewrite (proj2 (Z.ltb_lt _ _) Hc).
Qed.

(** Moving the cursor by [d] and back by [d] gives the state one started
    from. *)
Lemma reset_there_and_back w (d : Z) :
  replay_inv w →
  0 ≤ current_move_index w + d ≤ Z.of_nat (length (move_history w)) →
  ∃ w1, resetBoardToIndex
          (set_current_move_index (current_move_index w + d) w)
        = Returned w1
        ∧ current_move_index w1 = current_move_index w + d
        ∧ move_history w1 = move_history w
        ∧ resetBoardToIndex
            (set_current_move_index (current_move_index w1 - d) w1)
          = Returned w.
Proof.
  intros (Hpos & [ball Hall] & Hc) Hd.
  destruct (replay_take (move_history w)
              (Z.to_nat (current_move_index w + d)) ball Hall) as [b Hb].
  exists (set_board b (set_current_move_index (current_move_index w + d) w)).
  split_and!; [|done..|].
  - apply resetBoardToIndex_returns. simpl.
    by rewrite slice_to_nonneg by lia.
  - destruct w as [b0 sel pix h c an prog pend sp ep a bs ba ks ka mb].
    unfold position_is_replay in Hpos. simpl in *.
    replace (c + d - d) with c by lia.
    unfold resetBoardToIndex. simpl. by rewrite Hpos.
Qed.

(** X8: Left and Right undo each other.  In a reachable state with the
    cursor past the start, Left then Right leaves the widget exactly as it
    was; with the cursor before the end, so does Right then Left. *)
Theorem left_right_round_trip loadable w :
  reachable loadable w →
  (0 < current_move_index w →
   ∃ w1, keyPressEvent Key_Left w = Returned w1
         ∧ keyPressEvent Key_Right w1 = Returned w)
  ∧ (current_move_index w < Z.of_nat (length (move_history w)) →
     ∃ w1, keyPressEvent Key_Right w = Returned w1
           ∧ keyPressEvent Key_Left w1 = Returned w).
Proof.
  intros Hreach. pose proof (reachable_replay_inv _ _ Hreach) as Hinv.
  pose proof Hinv as (_ & _ & Hc). split; intros Hlt.
  - destruct (reset_there_and_back w (-1) Hinv) as (w1 & H1 & Hc1 & Hh1 & H2);
      [lia|].
    exists w1. rewrite keyPressEvent_left by done. split; [exact H1|].
    rewrite keyPressEvent_right by (rewrite Hc1, Hh1; lia).
    by replace (current_move_index w1 + 1)
      with (current_move_index w1 - -1) by lia.
  - destruct (reset_there_and_back w 1 Hinv) as (w1 & H1 & Hc1 & Hh1 & H2);
      [lia|].
    exists w1. rewrite keyPressEvent_right by done. split; [exact H1|].
    by rewrite keyPressEvent_left by (rewrite Hc1; lia).
Qed.

(** [n] presses of a key, from a state with the invariant. *)
Lemma key_presses key (n : nat) w :
  replay_inv w →
  ∃ w', run w (replicate n (KeyPress key)) = Some w'
        ∧ replay_inv w'
        ∧ move_history w' = move_history w
        ∧ current_move_index w'
          = match key with
            | Key_Left => Z.max 0 (current_move_index w - Z.of_nat n)
            | Key_Right =>
                Z.min (Z.of_nat (length (move_history w)))
                      (current_move_index w + Z.of_nat n)
            | Key_Other => current_move_index w
            end.
Proof.
  revert w. induction n as [|n IH]; intros w Hw.
  - exists w. pose proof Hw as (_ & _ & Hc).
    split_and!; [done..|]. destruct key; lia.
  - destruct (keyPressEvent_returns key w Hw) as (w1 & Hkey & Hw1 & Hh1 & Hc1).
    destruct (IH w1 Hw1) as (w' & Hrun & Hw' & Hh' & Hc').
    exists w'. pose proof Hw as (_ & _ & Hc). split_and!; [|done| |].
    + simpl. unfold dispatch. simpl. by rewrite Hkey.
    + by rewrite Hh', Hh1.
    + rewrite Hc', Hh1, Hc1. destruct key; lia.
Qed.

(** X9: the cursor is clamped.  From a reachable state, [n] presses of
    Left all return and leave the cursor at [max 0 (c - n)], and [n]
    presses of Right at [min (len history) (c + n)]; neither changes the
    history, and the board is the replay of the history up to the new
    cursor, the initial board once Left was pressed [c] times or more. *)
Theorem navigation_clamps loadable w (n : nat) :
  reachable loadable w →
  ∃ back forth,
    run w (replicate n (KeyPress Key_Left)) = Some back
    ∧ run w (replicate n (KeyPress Key_Right)) = Some forth
    ∧ move_history back = move_history w
    ∧ current_move_index back = Z.max 0 (current_move_index w - Z.of_nat n)
    ∧ replay (take (Z.to_nat (current_move_index back)) (move_history w))
      = Pushed (board back)
    ∧ (current_move_index w ≤ Z.of_nat n → board back = initial)
    ∧ move_history forth = move_history w
    ∧ current_move_index forth
      = Z.min (Z.of_nat (length (move_history w)))
              (current_move_index w + Z.of_nat n)
    ∧ replay (take (Z.to_nat (current_move_index forth)) (move_history w))
      = Pushed (board forth).
Proof.
  intros Hreach. pose proof (reachable_replay_inv _ _ Hreach) as Hinv.
  pose proof Hinv as (_ & _ & Hc).
  destruct (key_presses Key_Left n w Hinv)
    as (back & Hrl & (Hpl & _ & _) & Hhl & Hcl).
  destruct (key_presses Key_Right n w Hinv)
    as (forth & Hrr & (Hpr & _ & _) & Hhr & Hcr).
  unfold position_is_replay in Hpl, Hpr.
  rewrite slice_to_nonneg in Hpl by lia.
  rewrite slice_to_nonneg in Hpr by lia.
  rewrite Hhl in Hpl. rewrite Hhr in Hpr.
  exists back, forth. split_and!; try done.
  intros Hn. rewrite Hcl in Hpl.
  replace (Z.max 0 (current_move_index w - Z.of_nat n)) with 0 in Hpl by lia.
  simpl in Hpl. unfold replay in Hpl. simpl in Hpl. congruence.
Qed.

(** X10: a commit can be undone and leaves nothing to redo.  When the
    finished signal commits the pending move in a state of the running
    widget, the move is the last of the history; the Right key then
    changes nothing, and the Left key shows the board and the cursor of
    before the commit and keeps the history. *)
Theorem commit_then_left_undoes loadable w w' :
  reachable loadable w → handle AnimFinished w = Returned w' →
  ∃ m back,
    pending_move w = Some m
    ∧ last (move_history w') = Some m
    ∧ keyPressEvent Key_Right w' = Returned w'
    ∧ keyPressEvent Key_Left w' = Returned back
    ∧ board back = board w
    ∧ current_move_index back = current_move_index w
    ∧ move_history back = move_history w'.
Proof.
  intros Hreach Hfin. simpl in Hfin.
  pose proof (reachable_replay_inv _ _ Hreach) as (Hpos & _ & Hc).
  destruct (finishAnimation_inv _ w' Hfin) as (m & Hm & Hb & Hh & Hlen & _).
  simpl in Hm, Hb, Hh.
  rewrite slice_to_nonneg in Hh by lia.
  assert (current_move_index w' = current_move_index w + 1) as Hc'.
  { rewrite Hlen, Hh, length_app, length_take. simpl. lia. }
  exists m,
    (set_board (board w)
       (set_current_move_index (current_move_index w) w')).
  split_and!; try done.
  - rewrite Hh. apply last_snoc.
  - unfold keyPressEvent.
    by rewrite (proj2 (Z.ltb_ge _ _)) by lia.
  - rewrite keyPressEvent_left by lia.
    replace (current_move_index w' - 1) with (current_move_index w) by lia.
    apply resetBoardToIndex_returns. simpl.
    unfold position_is_replay in Hpos.
    rewrite slice_to_nonneg in * by lia. rewrite Hh.
    rewrite take_app_le by (rewrite length_take; lia).
    by rewrite take_take, Nat.min_id.
Qed.

(** ** Message boxes *)

(** X11: message boxes come from commits only.  An event other than the
    animation's [finished] shows none; a commit shows one exactly when the
    new board is checkmate, stalemate or a draw by insufficient material,
    that one being "Checkmate!" whenever the board is checkmate. *)
Theorem message_boxes_from_commits w ev :
  (ev ≠ AnimFinished →
   message_boxes (state_of (handle ev w)) = message_boxes w)
  ∧ ∀ m w', pending_move w = Some m → finishAnimation w = Returned w' →
      message_boxes w'
      = message_boxes w ++ option_list (game_over_message (board w'))
      ∧ (is_Some (game_over_message (board w'))
         ↔ is_checkmate (board w') || is_stalemate (board w')
           || is_insufficient_material (board w') = true)
      ∧ (is_checkmate (board w') = true →
         game_over_message (board w') = Some ("Game Over", "Checkmate!")).
Proof.
  split.
  - intros Hne. destruct ev; simpl; try done.
    + unfold mousePressEvent. by repeat case_match.
    + by destruct (keyPressEvent_frame key w)
        as (_ & _ & _ & _ & _ & -> & _).
    + by destruct (paintEvent_frame w) as (_ & _ & _ & _ & _ & _ & _ & ->).
  - intros m w' Hm Hfin.
    destruct (finishAnimation_inv w w' Hfin)
      as (_ & _ & _ & _ & _ & _ & _ & _ & _ & Hmb).
    split_and!; [done| |].
    + unfold game_over_message.
      destruct (is_checkmate (board w')), (is_stalemate (board w')),
        (is_insufficient_material (board w')); simpl;
        split; intros; try done; by eexists.
    + intros Hmate. unfold game_over_message. by rewrite Hmate.
Qed.

(** ** Selecting *)

Lemma handle_keeps_selection ev w :
  (∀ x y, ev ≠ MousePress x y) →
  selected_square (state_of (handle ev w)) = selected_square w.
Proof.
  intros Hne. destruct ev; simpl; try done.
  - by destruct (Hne x y).
  - by destruct (keyPressEvent_frame key w) as (-> & _).
  - by destruct (paintEvent_frame w) as (_ & -> & _).
  - by destruct (finishAnimation_frame (set_anim (stop <$> anim w) w))
      as (-> & _).
Qed.

Lemma mousePressEvent_selects x y w s :
  selected_square w = None →
  selected_square (state_of (mousePressEvent x y w)) = Some s →
  s = clicked_square x y
  ∧ animating w = false
  ∧ ∃ piece, piece_at (board w) s = Some piece
             ∧ color piece = turn (board w)
             ∧ mousePressEvent x y w
               = Returned (bouncePiece (set_selected_square (Some s) w)).
Proof.
  intros Hnone. rewrite mousePressEvent_cases, Hnone.
  destruct (animating w); simpl; [congruence|].
  destruct (piece_at (board w) (clicked_square x y)) as [piece|] eqn:Hp;
    simpl; [|congruence].
  case_bool_decide as Hcol; simpl; [|congruence].
  intros [= <-]. split_and!; [done..|]. exists piece. by rewrite Hp.
Qed.

(** X12: a square gets selected only by a press on a piece of the side to
    move.  When an event takes the widget from no selection to the
    selection of a square, the event is a mouse press resolved to that
    square, no move is being animated, the square holds a piece of the
    side to move, and the handler does nothing but select the square and
    start the selection bounce. *)
Theorem selection_needs_own_piece w ev s :
  selected_square w = None →
  selected_square (state_of (handle ev w)) = Some s →
  ∃ x y piece,
    ev = MousePress x y ∧ s = clicked_square x y
    ∧ animating w = false
    ∧ piece_at (board w) s = Some piece ∧ color piece = turn (board w)
    ∧ handle ev w = Returned (bouncePiece (set_selected_square (Some s) w))
    ∧ running (bounceAnim (bouncePiece (set_selected_square (Some s) w)))
      = true.
Proof.
  intros Hnone Hsome.
  assert (∃ x y, ev = MousePress x y) as (x & y & ->).
  { destruct ev; eauto; rewrite handle_keeps_selection in Hsome by done;
      congruence. }
  destruct (mousePressEvent_selects x y w s Hnone Hsome)
    as (Hs & Han & piece & Hp & Hcol & Hev).
  exists x, y, piece. by split_and!.
Qed.

(** ** Commits and the king bounce *)

(** X16: a commit settles the king bounce.  When the finished signal
    commits the pending move in a state of the running widget, then if
    the side to move is not in check there is no king bounce and the
    scale is 1, and if it is in check the bounce and the scale are as
    before the commit.  When the handler raises instead, the bounce and
    the scale are as before. *)
Theorem commit_settles_king_bounce loadable w :
  reachable loadable w →
  (∀ w', handle AnimFinished w = Returned w' →
     (is_check (board w') = false →
      kingBounceAnim w' = None ∧ _king_bounce_scale w' = 1%Q)
     ∧ (is_check (board w') = true →
        kingBounceAnim w' = kingBounceAnim w
        ∧ _king_bounce_scale w' = _king_bounce_scale w))
  ∧ ∀ e w', handle AnimFinished w = Raised e w' →
      kingBounceAnim w' = kingBounceAnim w
      ∧ _king_bounce_scale w' = _king_bounce_scale w.
Proof.
  intros [evs Hrun].
  assert (king_bounce_inv w) as [Hnone _].
  { revert Hrun. apply run_invariant_state; [|done].
    intros ???. by apply handle_king_bounce. }
  clear evs Hrun. split.
  - intros w' Hfin. simpl in Hfin.
    destruct (finishAnimation_stops_bounce _ w' Hfin) as [Hout Hin].
    simpl in Hout, Hin. split; [|done].
    intros Hcheck. destruct (Hout Hcheck) as (Hk & Hs & Hn).
    split; [done|]. destruct (kingBounceAnim w) eqn:Hka; [by apply Hs|].
    rewrite Hn by done. by apply Hnone.
  - intros e w' Hfin. simpl in Hfin.
    rewrite (finishAnimation_raised _ e w' Hfin). done.
Qed.

End Coverage.

(** * The widget on concrete games *)

Import Games.

Lemma after_run evs :
  bool_decide (is_Some (run fresh evs)) = true →
  run fresh evs = Some (after evs).
Proof. unfold after. by intros [w ->]%bool_decide_eq_true. Defined.

(** Closes [run fresh evs = Some (after evs)] by running the events. *)
Ltac runs := apply after_run; vm_compute; reflexivity.

(** Closes an equation between values by evaluating both sides. *)
Ltac evaluates := vm_compute; reflexivity.

Lemma reachable_after evs :
  bool_decide (is_Some (run fresh evs)) = true →
  reachable all_loadable (after evs).
Proof. intros Hrun. exists evs. by apply after_run. Defined.

(** The last event of a run that the widget survives: its handler
    returns, with the state the run ends in. *)
Lemma handle_after evs ev :
  bool_decide (is_Some (run fresh (evs ++ [ev]))) = true →
  deliverable (after evs) ev = true
  ∧ handle ev (after evs) = Returned (after (evs ++ [ev])).
Proof.
  intros [w Hrun]%bool_decide_eq_true. unfold after. rewrite Hrun.
  rewrite run_app in Hrun.
  destruct (run fresh evs) as [w1|]; [|done]. simpl in *.
  unfold dispatch in Hrun. destruct (deliverable w1 ev); [|done].
  destruct (handle ev w1) as [w2|e w2]; [|done]. by injection Hrun as ->.
Defined.

Lemma dispatch_after evs ev :
  bool_decide (is_Some (run fresh (evs ++ [ev]))) = true →
  dispatch (after evs) ev = Some (Returned (after (evs ++ [ev]))).
Proof.
  intros Hrun. destruct (handle_after evs ev Hrun) as [Hd Hev].
  unfold dispatch. by rewrite Hd, Hev.
Defined.

(** A run that ends the application. *)
Lemma run_ends evs :
  bool_decide (is_Some (run fresh evs)) = false → run fresh evs = None.
Proof.
  intros Hrun%bool_decide_eq_false. destruct (run fresh evs); [|done].
  by destruct Hrun.
Qed.

(** Witness of C1, after 1. e4 e5 2. Nf3, two steps back and c7-c5
    started. *)
Lemma board_is_replay_witness :
  reachable all_loadable (after branching)
  ∧ replay (slice_to (move_history (after branching))
                     (current_move_index (after branching)))
    = Pushed (board (after branching)).
Proof.
  assert (reachable all_loadable (after branching)) as Hreach.
  { apply reachable_after. vm_compute. reflexivity. }
  split; [exact Hreach|].
  exact (proj1 (board_is_replay all_loadable (after branching) Hreach)).
Defined.

(** The states the invariant of C1 is about are those of the running
    widget.  After 1. e4 d5, with exd5 started and the Left key pressed
    twice during the animation, the board is the initial one, where e4 is
    empty: the finished signal makes [board.push] raise after it has
    advanced the halfmove clock, and the application ends there. *)
Example finished_after_rewind_raises :
  let b : @Board MiniChess.engine :=
    MiniChess.mkPosition (MiniChess.squares MiniChess.start) WHITE None 1 1
  in
  run fresh rewound_capture = Some (after rewound_capture)
  ∧ move_history (after rewound_capture)
    = [mkMove e2 e4 None; mkMove d7 d5 None]
  ∧ current_move_index (after rewound_capture) = 0
  ∧ pending_move (after rewound_capture) = Some (mkMove e4 d5 None)
  ∧ board (after rewound_capture) = initial
  ∧ piece_at (board (after rewound_capture)) e4 = None
  ∧ push (board (after rewound_capture)) (mkMove e4 d5 None) = PushRaised b
  ∧ MiniChess.halfmove_clock b = 1
  ∧ MiniChess.halfmove_clock initial = 0
  ∧ dispatch (after rewound_capture) AnimFinished
    = Some (Raised AssertionError
              (set_board b
                 (set_anim (stop <$> anim (after rewound_capture))
                    (after rewound_capture))))
  ∧ run fresh (rewound_capture ++ [AnimFinished]) = None.
Proof.
  intros b. split; [runs|].
  split_and!;
    [evaluates | evaluates | evaluates | evaluates | evaluates | evaluates
     | reflexivity | reflexivity | | ].
  - unfold dispatch. replace (deliverable _ _) with true by evaluates.
    unfold handle.
    rewrite (finishAnimation_raises _ (mkMove e4 d5 None) b) by evaluates.
    reflexivity.
  - apply run_ends. evaluates.
Qed.

(** Witness of C2: the history is [e2e4; e7e5; g1f3] with the cursor at 1;
    committing c7c5 leaves [e2e4; c7c5] and the cursor at 2. *)
Lemma finishAnimation_truncates_witness :
  move_history (after branching)
  = [mkMove e2 e4 None; mkMove e7 e5 None; mkMove g1 f3 None]
  ∧ current_move_index (after branching) = 1
  ∧ pending_move (after branching) = Some (mkMove c7 c5 None)
  ∧ pushes (board (after branching)) (mkMove c7 c5 None) = true
  ∧ ∃ w', finishAnimation (after branching) = Returned w'
          ∧ move_history w' = [mkMove e2 e4 None; mkMove c7 c5 None]
          ∧ current_move_index w' = 2.
Proof.
  assert (pushes (board (after branching)) (mkMove c7 c5 None) = true)
    as Hpush by (vm_compute; reflexivity).
  split_and!; [vm_compute; reflexivity.. | exact Hpush |].
  destruct (finishAnimation_truncates (after branching) (mkMove c7 c5 None))
    as (Hret & Hex & _).
  - vm_compute. reflexivity.
  - vm_compute. reflexivity.
  - destruct (Hex Hpush) as [w' Hfin]. exists w'. split; [exact Hfin|].
    destruct (Hret w' Hfin) as (Hh & Hc & _). rewrite Hc, Hh. split.
    + vm_compute. reflexivity.
    + vm_compute. reflexivity.
Defined.

(** Witness of C8, while e7-e5 is animated. *)
Lemma pending_iff_animating_witness :
  reachable all_loadable (after mid_animation)
  ∧ pending_move (after mid_animation) = Some (mkMove e7 e5 None)
  ∧ (pending_move (after mid_animation) ≠ None
     ↔ animating (after mid_animation) = true).
Proof.
  assert (reachable all_loadable (after mid_animation)) as Hreach.
  { apply reachable_after. vm_compute. reflexivity. }
  split_and!; [exact Hreach | vm_compute; reflexivity |].
  exact (proj1 (pending_iff_animating all_loadable _ Hreach)).
Defined.

(** Witness of C7: after 1. e4 a6 2. e5 d5 with e5 selected, the capture
    e5xd6 en passant circles d5, the black pawn, and not d6. *)
Lemma killable_squares_witness :
  selected_square (after white_en_passant) = Some e5
  ∧ animating (after white_en_passant) = false
  ∧ ∃ killable,
      killable_squares (after white_en_passant) = Some killable
      ∧ d5 ∈ killable
      ∧ captured_sq (board (after white_en_passant)) (mkMove e5 d6 None) = d5.
Proof.
  split_and!; [vm_compute; reflexivity..|].
  destruct (killable_squares_spec (after white_en_passant) e5)
    as (killable & Hk & _ & Hmoves).
  - vm_compute. reflexivity.
  - vm_compute. reflexivity.
  - exists killable. split; [exact Hk|].
    destruct (Hmoves (mkMove e5 d6 None)) as (Hin & Hep & _).
    + apply (bool_decide_unpack _). vm_compute. exact I.
    + vm_compute. reflexivity.
    + vm_compute. reflexivity.
    + destruct Hep as (_ & Hpiece); [vm_compute; reflexivity|].
      destruct (Hpiece (mkPiece PAWN WHITE)) as ((Hsq & _) & _);
        [vm_compute; reflexivity | reflexivity |].
      rewrite Hsq in Hin |- *. split; [exact Hin | reflexivity].
Defined.

(** The set itself: d5 alone is circled, and d6 gets neither a circle nor
    a dot. *)
Example white_en_passant_highlights :
  elements <$> killable_squares (after white_en_passant) = Some [d5]
  ∧ legal_dots (after white_en_passant) = [44].
Proof. split; evaluates. Qed.

(** Black's side: after 1. a3 d5 2. a4 d4 3. e4 with d4 selected, the
    capture d4xe3 en passant circles e4, the white pawn, one rank above
    the destination e3. *)
Example black_en_passant_highlights :
  run fresh black_en_passant = Some (after black_en_passant)
  ∧ is_en_passant (board (after black_en_passant)) (mkMove 27 20 None) = true
  ∧ elements <$> killable_squares (after black_en_passant) = Some [e4].
Proof. split; [runs|]. split; evaluates. Qed.

(** C4, at the failing input: 1. e4, back to the start, e2 selected.  The
    Left key, with the cursor at 0, returns and leaves e2 selected; the
    Right key moves the cursor to 1 and leaves e2 selected too, on a
    board where e2 is empty. *)
Theorem navigation_leaves_selection :
  run fresh selected_at_start = Some (after selected_at_start)
  ∧ selected_square (after selected_at_start) = Some e2
  ∧ current_move_index (after selected_at_start) = 0
  ∧ dispatch (after selected_at_start) (KeyPress Key_Left)
    = Some (Returned (after (selected_at_start ++ [KeyPress Key_Left])))
  ∧ current_move_index (after (selected_at_start ++ [KeyPress Key_Left]))
    = 0
  ∧ selected_square (after (selected_at_start ++ [KeyPress Key_Left]))
    = Some e2
  ∧ dispatch (after selected_at_start) (KeyPress Key_Right)
    = Some (Returned (after (selected_at_start ++ [KeyPress Key_Right])))
  ∧ current_move_index (after (selected_at_start ++ [KeyPress Key_Right]))
    = 1
  ∧ selected_square (after (selected_at_start ++ [KeyPress Key_Right]))
    = Some e2
  ∧ piece_at (board (after (selected_at_start ++ [KeyPress Key_Right]))) e2
    = None.
Proof.
  split; [runs|].
  split_and!;
    [evaluates | evaluates | apply dispatch_after; evaluates
     | evaluates | evaluates | apply dispatch_after; evaluates
     | evaluates | evaluates | evaluates].
Qed.

(** C3, at the failing input: 1. e4, Left, click e2, Right, then a click
    on e4.  The board shows the position after 1. e4, e2 is selected and
    empty, and [mousePressEvent] raises [AttributeError]. *)
Theorem click_with_stale_selection_raises :
  run fresh stale_selection = Some (after stale_selection)
  ∧ animating (after stale_selection) = false
  ∧ selected_square (after stale_selection) = Some e2
  ∧ piece_at (board (after stale_selection)) e2 = None
  ∧ dispatch (after stale_selection) (click_on e4)
    = Some (Raised AttributeError (after stale_selection)).
Proof.
  split; [runs|]. split_and!; [evaluates..|].
  unfold dispatch. replace (deliverable _ _) with true by evaluates.
  unfold click_on, handle.
  rewrite (mousePressEvent_stale _ _ _ e2) by evaluates. reflexivity.
Qed.

(** C5, at the failing input: 1. e4, then e7-e5 started.  While the
    animation runs, the Left key is delivered and handled: the cursor goes
    from 1 to 0 and the board back to the initial position, where it is
    White's turn and e7e5 is not legal, the move still pending; the
    animation then commits e7e5 there. *)
Theorem navigation_during_animation :
  run fresh mid_animation = Some (after mid_animation)
  ∧ animating (after mid_animation) = true
  ∧ pending_move (after mid_animation) = Some (mkMove e7 e5 None)
  ∧ current_move_index (after mid_animation) = 1
  ∧ turn (board (after mid_animation)) = BLACK
  ∧ dispatch (after mid_animation) (KeyPress Key_Left)
    = Some (Returned (after (mid_animation ++ [KeyPress Key_Left])))
  ∧ current_move_index (after (mid_animation ++ [KeyPress Key_Left])) = 0
  ∧ board (after (mid_animation ++ [KeyPress Key_Left])) = initial
  ∧ turn (board (after (mid_animation ++ [KeyPress Key_Left]))) = WHITE
  ∧ pending_move (after (mid_animation ++ [KeyPress Key_Left]))
    = Some (mkMove e7 e5 None)
  ∧ (mkMove e7 e5 None
     ∉ legal_moves (board (after (mid_animation ++ [KeyPress Key_Left]))))
  ∧ run fresh (mid_animation ++ [KeyPress Key_Left; AnimFinished])
    = Some (after (mid_animation ++ [KeyPress Key_Left; AnimFinished]))
  ∧ move_history (after (mid_animation ++ [KeyPress Key_Left; AnimFinished]))
    = [mkMove e7 e5 None]
  ∧ push initial (mkMove e7 e5 None)
    = Pushed
        (board (after (mid_animation ++ [KeyPress Key_Left; AnimFinished]))).
Proof.
  split; [runs|].
  split_and!;
    [evaluates | evaluates | evaluates | evaluates
     | apply dispatch_after; evaluates | evaluates | evaluates | evaluates
     | evaluates
     | apply (proj1 (bool_decide_eq_false _)); evaluates | runs | evaluates
     | evaluates].
Qed.

(** C6, at the failing input of C3: the attempted move e2e4 is not legal
    on the board shown, the animator is not started, and the selection is
    not cleared: the handler raises first. *)
Theorem illegal_attempt_keeps_stale_selection :
  run fresh stale_selection = Some (after stale_selection)
  ∧ selected_square (after stale_selection) = Some e2
  ∧ (mkMove e2 e4 None ∉ legal_moves (board (after stale_selection)))
  ∧ raised (mousePressEvent 270 270 (after stale_selection)) = true
  ∧ pending_move (state_of (mousePressEvent 270 270 (after stale_selection)))
    = None
  ∧ selected_square
      (state_of (mousePressEvent 270 270 (after stale_selection)))
    = Some e2.
Proof.
  split; [runs|].
  split_and!;
    [evaluates | apply (proj1 (bool_decide_eq_false _)); evaluates | evaluates..].
Qed.

(** C9, at the failing input: 1. e4 f5 2. Qh5+, a paint, then the Left
    key.  After the paint Black is in check and the king bounce runs; the
    Left key shows the position before 2. Qh5+, where nobody is in check,
    and the king bounce still runs, as it does after any further paint. *)
Theorem king_bounce_outlives_check :
  run fresh check_painted = Some (after check_painted)
  ∧ is_check (board (after check_painted)) = true
  ∧ running (kingBounceAnim (after check_painted)) = true
  ∧ dispatch (after check_painted) (KeyPress Key_Left)
    = Some (Returned (after (check_painted ++ [KeyPress Key_Left])))
  ∧ is_check (board (after (check_painted ++ [KeyPress Key_Left]))) = false
  ∧ running (kingBounceAnim (after (check_painted ++ [KeyPress Key_Left])))
    = true
  ∧ dispatch (after (check_painted ++ [KeyPress Key_Left])) Paint
    = Some (Returned (paintEvent
                        (after (check_painted ++ [KeyPress Key_Left]))))
  ∧ running (kingBounceAnim
               (paintEvent (after (check_painted ++ [KeyPress Key_Left]))))
    = true.
Proof.
  split; [runs|].
  split_and!;
    [evaluates | evaluates | apply dispatch_after; evaluates | evaluates
     | evaluates | reflexivity | evaluates].
Qed.

(** C10, at the failing input of C3: with e2 selected and empty on the
    board shown, no click clears the selection; wherever it lands, the
    handler raises and e2 stays selected. *)
Theorem stale_selection_is_never_cleared :
  run fresh stale_selection = Some (after stale_selection)
  ∧ selected_square (after stale_selection) = Some e2
  ∧ ∀ x y,
      mousePressEvent x y (after stale_selection)
      = Raised AttributeError (after stale_selection)
      ∧ selected_square
          (state_of (mousePressEvent x y (after stale_selection)))
        = Some e2.
Proof.
  split; [runs|]. split; [evaluates|]. intros x y.
  rewrite (mousePressEvent_stale x y _ e2) by evaluates.
  split; [reflexivity | evaluates].
Qed.

(** * More concrete games *)

(** A restricted run that delivers every event ends where the run does. *)
Lemma after_run_if (ok : Widget → Event → bool) evs :
  bool_decide (is_Some (run_if ok fresh evs)) = true →
  run_if ok fresh evs = Some (after evs).
Proof.
  intros [w Hrun]%bool_decide_eq_true. rewrite Hrun. unfold after.
  by rewrite (run_if_run ok evs fresh w Hrun).
Defined.

(** Witness of X3: the pixel (17, 59) of the rectangle of e4. *)
Lemma click_resolves_square_witness :
  0 ≤ e4 < 64 ∧ 0 ≤ 17 < square_size ∧ 0 ≤ 59 < square_size
  ∧ square_origin e4 = (240, 240)
  ∧ clicked_square ((square_origin e4).1 + 17) ((square_origin e4).2 + 59)
    = e4.
Proof.
  assert (0 ≤ e4 < 64) as Hsq by (unfold e4; lia).
  assert (0 ≤ 17 < square_size) as Hdx by (unfold square_size; lia).
  assert (0 ≤ 59 < square_size) as Hdy by (unfold square_size; lia).
  split_and!; [lia.. | reflexivity |].
  exact (proj1 (proj2 (click_resolves_square fresh e4 17 59 Hsq Hdx Hdy))).
Defined.

(** Witness of X4, while e7-e5 is animated. *)
Lemma reachable_moves_wf_witness :
  reachable all_loadable (after mid_animation)
  ∧ pending_move (after mid_animation) = Some (mkMove e7 e5 None)
  ∧ wf_move (mkMove e7 e5 None).
Proof.
  assert (reachable all_loadable (after mid_animation)) as Hreach.
  { apply reachable_after. vm_compute. reflexivity. }
  assert (pending_move (after mid_animation) = Some (mkMove e7 e5 None))
    as Hm by (vm_compute; reflexivity).
  split_and!; [exact Hreach | exact Hm |].
  exact (proj1 (proj2 (reachable_moves_wf all_loadable _ Hreach)) _ Hm).
Defined.

(** Witness of X5, while e7-e5 is animated: the move is legal on the
    board shown, [board.push] returns, and the finished signal commits
    it. *)
Lemma animation_is_not_cancelled_witness :
  reachable all_loadable (after mid_animation)
  ∧ pending_move (after mid_animation) = Some (mkMove e7 e5 None)
  ∧ deliverable (after mid_animation) AnimFinished = true
  ∧ ∃ w', handle AnimFinished (after mid_animation) = Returned w'
          ∧ board w' = board (after (mid_animation ++ [AnimFinished]))
          ∧ last (move_history w') = Some (mkMove e7 e5 None)
          ∧ current_move_index w' = Z.of_nat (length (move_history w'))
          ∧ pending_move w' = None ∧ animating w' = false.
Proof.
  assert (reachable all_loadable (after mid_animation)) as Hreach.
  { apply reachable_after. vm_compute. reflexivity. }
  assert (pending_move (after mid_animation) = Some (mkMove e7 e5 None))
    as Hm by (vm_compute; reflexivity).
  assert (push (board (after mid_animation)) (mkMove e7 e5 None)
          = Pushed (board (after (mid_animation ++ [AnimFinished]))))
    as Hb by (vm_compute; reflexivity).
  split; [exact Hreach|]. split; [exact Hm|].
  destruct (animation_is_not_cancelled all_loadable _ _ Hreach Hm)
    as (_ & Hd & Hcommit & _).
  split; [exact Hd|]. exact (Hcommit _ Hb).
Defined.

(** The other case of X5 and the second raise of X13: the finished signal
    of the rewound capture of [finished_after_rewind_raises] leaves the
    move pending and the history as it was. *)
Example rewound_capture_stays_pending :
  run fresh rewound_capture = Some (after rewound_capture)
  ∧ deliverable (after rewound_capture) AnimFinished = true
  ∧ raised (handle AnimFinished (after rewound_capture)) = true
  ∧ pending_move (state_of (handle AnimFinished (after rewound_capture)))
    = Some (mkMove e4 d5 None)
  ∧ animating (state_of (handle AnimFinished (after rewound_capture)))
    = true
  ∧ move_history (state_of (handle AnimFinished (after rewound_capture)))
    = [mkMove e2 e4 None; mkMove d7 d5 None]
  ∧ current_move_index
      (state_of (handle AnimFinished (after rewound_capture))) = 0.
Proof. split; [runs|]. split_and!; evaluates. Qed.

(** Witness of X6: 1. e4 e5 2. Nf3, back to the position after 1. e4, and
    1... c5 committed there: the history [e2e4; c7c5] is a legal game. *)
Lemma history_is_legal_game_witness :
  run_if no_key_in_flight fresh (branching ++ [AnimFinished])
  = Some (after (branching ++ [AnimFinished]))
  ∧ move_history (after (branching ++ [AnimFinished]))
    = [mkMove e2 e4 None; mkMove c7 c5 None]
  ∧ legal_from initial (move_history (after (branching ++ [AnimFinished])))
    = true.
Proof.
  assert (run_if no_key_in_flight fresh (branching ++ [AnimFinished])
          = Some (after (branching ++ [AnimFinished]))) as Hrun.
  { apply after_run_if. vm_compute. reflexivity. }
  split_and!; [exact Hrun | vm_compute; reflexivity |].
  exact (proj1 (history_is_legal_game all_loadable _ _ Hrun)).
Defined.

(** Witness of X7: 1. e4, then e7 selected; the click on e5 that follows
    does not raise. *)
Lemma no_arrow_key_no_raise_witness :
  run_if no_arrow_key fresh (play e2 e4 ++ [click_on e7])
  = Some (after (play e2 e4 ++ [click_on e7]))
  ∧ selected_square (after (play e2 e4 ++ [click_on e7])) = Some e7
  ∧ deliverable (after (play e2 e4 ++ [click_on e7])) (click_on e5) = true
  ∧ raised (handle (click_on e5) (after (play e2 e4 ++ [click_on e7])))
    = false.
Proof.
  assert (run_if no_arrow_key fresh (play e2 e4 ++ [click_on e7])
          = Some (after (play e2 e4 ++ [click_on e7]))) as Hrun.
  { apply after_run_if. vm_compute. reflexivity. }
  assert (deliverable (after (play e2 e4 ++ [click_on e7])) (click_on e5)
          = true) as Hd by (vm_compute; reflexivity).
  split_and!; [exact Hrun | vm_compute; reflexivity | exact Hd |].
  exact (proj2 (proj2 (no_arrow_key_no_raise all_loadable _ _ Hrun)) _ Hd).
Defined.

(** Witness of X8, with the cursor at 1 of 2. *)
Lemma left_right_round_trip_witness :
  reachable all_loadable (after one_back)
  ∧ 0 < current_move_index (after one_back)
  ∧ current_move_index (after one_back)
    < Z.of_nat (length (move_history (after one_back)))
  ∧ (∃ w1, keyPressEvent Key_Left (after one_back) = Returned w1
           ∧ keyPressEvent Key_Right w1 = Returned (after one_back))
  ∧ (∃ w1, keyPressEvent Key_Right (after one_back) = Returned w1
           ∧ keyPressEvent Key_Left w1 = Returned (after one_back)).
Proof.
  assert (reachable all_loadable (after one_back)) as Hreach.
  { apply reachable_after. vm_compute. reflexivity. }
  assert (0 < current_move_index (after one_back)) as Hlo
    by (vm_compute; reflexivity).
  assert (current_move_index (after one_back)
          < Z.of_nat (length (move_history (after one_back)))) as Hhi
    by (vm_compute; reflexivity).
  split_and!; [exact Hreach | exact Hlo | exact Hhi | |].
  - exact (proj1 (left_right_round_trip all_loadable _ Hreach) Hlo).
  - exact (proj2 (left_right_round_trip all_loadable _ Hreach) Hhi).
Defined.

(** Witness of X9: five presses of Left from the cursor at 1. *)
Lemma navigation_clamps_witness :
  reachable all_loadable (after one_back)
  ∧ current_move_index (after one_back) = 1
  ∧ ∃ back,
      run (after one_back) (replicate 5 (KeyPress Key_Left)) = Some back
      ∧ current_move_index back = 0
      ∧ board back = initial.
Proof.
  assert (reachable all_loadable (after one_back)) as Hreach.
  { apply reachable_after. vm_compute. reflexivity. }
  assert (current_move_index (after one_back) = 1) as Hone
    by (vm_compute; reflexivity).
  assert (current_move_index (after one_back) ≤ Z.of_nat 5) as Hn
    by (vm_compute; discriminate).
  destruct (navigation_clamps all_loadable (after one_back) 5 Hreach)
    as (back & forth & Hrun & _ & _ & Hc & _ & Hb & _).
  split_and!; [exact Hreach | exact Hone |].
  exists back. split; [exact Hrun|]. split; [|exact (Hb Hn)].
  rewrite Hc, Hone. reflexivity.
Defined.

(** Witness of X10: the commit of e7e5 after 1. e4. *)
Lemma commit_then_left_undoes_witness :
  reachable all_loadable (after mid_animation)
  ∧ handle AnimFinished (after mid_animation)
    = Returned (after (mid_animation ++ [AnimFinished]))
  ∧ keyPressEvent Key_Right (after (mid_animation ++ [AnimFinished]))
    = Returned (after (mid_animation ++ [AnimFinished]))
  ∧ ∃ back,
      keyPressEvent Key_Left (after (mid_animation ++ [AnimFinished]))
      = Returned back
      ∧ board back = board (after mid_animation)
      ∧ current_move_index back = 1.
Proof.
  assert (reachable all_loadable (after mid_animation)) as Hreach.
  { apply reachable_after. vm_compute. reflexivity. }
  assert (handle AnimFinished (after mid_animation)
          = Returned (after (mid_animation ++ [AnimFinished]))) as Hfin.
  { apply handle_after. vm_compute. reflexivity. }
  split; [exact Hreach|]. split; [exact Hfin|].
  destruct (commit_then_left_undoes all_loadable _ _ Hreach Hfin)
    as (m & back & _ & _ & Hright & Hleft & Hb & Hc & _).
  split; [exact Hright|]. exists back.
  split; [exact Hleft|]. split; [exact Hb|]. rewrite Hc.
  vm_compute. reflexivity.
Defined.

(** Witness of X12: the first click of a game, on e2. *)
Lemma selection_needs_own_piece_witness :
  selected_square fresh = None
  ∧ selected_square (state_of (handle (click_on e2) fresh)) = Some e2
  ∧ ∃ x y piece,
      click_on e2 = MousePress x y ∧ e2 = clicked_square x y
      ∧ animating fresh = false
      ∧ piece_at (board fresh) e2 = Some piece
      ∧ color piece = turn (board fresh)
      ∧ handle (click_on e2) fresh
        = Returned (bouncePiece (set_selected_square (Some e2) fresh))
      ∧ running (bounceAnim
                   (bouncePiece (set_selected_square (Some e2) fresh)))
        = true.
Proof.
  assert (selected_square fresh = None) as Hnone by reflexivity.
  assert (selected_square (state_of (handle (click_on e2) fresh)) = Some e2)
    as Hsome by (vm_compute; reflexivity).
  split_and!; [exact Hnone | exact Hsome |].
  exact (selection_needs_own_piece fresh (click_on e2) e2 Hnone Hsome).
Defined.

(** Witness of X13: the click of C3. *)
Lemma reachable_raises_witness :
  reachable all_loadable (after stale_selection)
  ∧ deliverable (after stale_selection) (click_on e4) = true
  ∧ raised (handle (click_on e4) (after stale_selection)) = true
  ∧ ((∃ x y selected,
        click_on e4 = MousePress x y
        ∧ inside_widget x y = true
        ∧ animating (after stale_selection) = false
        ∧ selected_square (after stale_selection) = Some selected
        ∧ piece_at (board (after stale_selection)) selected = None
        ∧ handle (click_on e4) (after stale_selection)
          = Raised AttributeError (after stale_selection))
     ∨ (∃ m b,
          click_on e4 = AnimFinished
          ∧ pending_move (after stale_selection) = Some m
          ∧ push (board (after stale_selection)) m = PushRaised b
          ∧ handle (click_on e4) (after stale_selection)
            = Raised AssertionError
                (set_board b
                   (set_anim (stop <$> anim (after stale_selection))
                      (after stale_selection))))).
Proof.
  assert (reachable all_loadable (after stale_selection)) as Hreach.
  { apply reachable_after. vm_compute. reflexivity. }
  assert (deliverable (after stale_selection) (click_on e4) = true) as Hd
    by (vm_compute; reflexivity).
  assert (raised (handle (click_on e4) (after stale_selection)) = true)
    as Hr by (vm_compute; reflexivity).
  split_and!; [exact Hreach | exact Hd | exact Hr |].
  exact (reachable_raises all_loadable _ _ Hreach Hd Hr).
Defined.

(** Witness of X14: Black in check after 2. Qh5+, the bounce running. *)
Lemma reachable_king_bounce_witness :
  reachable all_loadable (after check_painted)
  ∧ running (kingBounceAnim (after check_painted)) = true
  ∧ king_bounce_inv (after check_painted).
Proof.
  assert (reachable all_loadable (after check_painted)) as Hreach.
  { apply reachable_after. vm_compute. reflexivity. }
  split_and!; [exact Hreach | vm_compute; reflexivity |].
  exact (reachable_king_bounce all_loadable _ Hreach).
Defined.

(** Witness of X15, while e7-e5 is animated. *)
Lemma reachable_animating_unselected_witness :
  reachable all_loadable (after mid_animation)
  ∧ animating (after mid_animation) = true
  ∧ selected_square (after mid_animation) = None.
Proof.
  assert (reachable all_loadable (after mid_animation)) as Hreach.
  { apply reachable_after. vm_compute. reflexivity. }
  assert (animating (after mid_animation) = true) as Han
    by (vm_compute; reflexivity).
  split_and!; [exact Hreach | exact Han |].
  exact (reachable_animating_unselected all_loadable _ Hreach Han).
Defined.

(** Witness of X16: Black answers 2. Qh5+ with g6; the commit leaves no
    check and no king bounce. *)
Lemma commit_settles_king_bounce_witness :
  reachable all_loadable (after check_answered)
  ∧ running (kingBounceAnim (after check_answered)) = true
  ∧ handle AnimFinished (after check_answered)
    = Returned (after (check_answered ++ [AnimFinished]))
  ∧ is_check (board (after (check_answered ++ [AnimFinished]))) = false
  ∧ kingBounceAnim (after (check_answered ++ [AnimFinished])) = None
  ∧ _king_bounce_scale (after (check_answered ++ [AnimFinished])) = 1%Q.
Proof.
  assert (reachable all_loadable (after check_answered)) as Hreach.
  { apply reachable_after. vm_compute. reflexivity. }
  assert (handle AnimFinished (after check_answered)
          = Returned (after (check_answered ++ [AnimFinished]))) as Hfin.
  { apply handle_after. vm_compute. reflexivity. }
  assert (is_check (board (after (check_answered ++ [AnimFinished])))
          = false) as Hcheck by (vm_compute; reflexivity).
  split; [exact Hreach|]. split; [vm_compute; reflexivity|].
  split; [exact Hfin|]. split; [exact Hcheck|].
  exact (proj1 (proj1 (commit_settles_king_bounce all_loadable _ Hreach)
                  _ Hfin) Hcheck).
Defined.

(** The fool's mate ends with one message box, and then no click starts a
    move: White has no legal move. *)
Example fools_mate_shows_checkmate :
  run fresh fools_mate = Some (after fools_mate)
  ∧ message_boxes (after fools_mate) = [("Game Over", "Checkmate!")]
  ∧ legal_moves (board (after fools_mate)) = []
  ∧ pending_move (after (fools_mate ++ [click_on e2; click_on e4])) = None.
Proof. split; [runs|]. split_and!; evaluates. Qed.
